(** * Graphormer encoder layers (layers.py): a shallow embedding

    The tensor programs of [layers.py] are written as Rocq functions over
    binary32 floating-point numbers.  Tensors carry their shape; operations
    that PyTorch rejects raise an error; the two timestamp prints of
    [EdgeEncoding.forward] are threaded through a small state-and-error
    monad. *)

From Stdlib Require Import String.
From Stdlib Require Import ZArith List Bool Lia PeanoNat.
From Stdlib Require Import Permutation Sorted.
From Stdlib Require Import Floats.SpecFloat.
Import ListNotations.

(** ** Scalars: IEEE-754 binary32 *)

Module F32.

Definition f32 := spec_float.

Definition prec : Z := 24.
Definition emax : Z := 128.

Definition add : f32 -> f32 -> f32 := SFadd prec emax.
Definition sub : f32 -> f32 -> f32 := SFsub prec emax.
Definition mul : f32 -> f32 -> f32 := SFmul prec emax.
Definition div : f32 -> f32 -> f32 := SFdiv prec emax.
Definition sqrt : f32 -> f32 := SFsqrt prec emax.

Definition of_Z (z : Z) : f32 := binary_normalize prec emax z 0 false.
Definition of_nat (n : nat) : f32 := of_Z (Z.of_nat n).

Definition zero : f32 := S754_zero false.
Definition one : f32 := of_Z 1.
Definition two : f32 := of_Z 2.
Definition half : f32 := div one two.
Definition nan : f32 := S754_nan.
Definition pinf : f32 := S754_infinity false.
Definition ninf : f32 := S754_infinity true.
Definition max_float : f32 := SFmax_float prec emax.

(** The fill value [-1e6] of the attention mask; it is a binary32 number. *)
Definition neg_1e6 : f32 := of_Z (-1000000).

(** [1e-5], the default [eps] of [nn.LayerNorm]. *)
Definition eps_1e5 : f32 := div one (of_Z 100000).

Definition is_nan (x : f32) : bool :=
  match x with S754_nan => true | _ => false end.

Definition is_zero (x : f32) : bool :=
  match x with S754_zero _ => true | _ => false end.

Definition is_finite (x : f32) : bool :=
  match x with S754_zero _ | S754_finite _ _ _ => true | _ => false end.

(** A strictly positive number or [+inf]. *)
Definition is_pos (x : f32) : bool :=
  match x with S754_finite false _ _ | S754_infinity false => true | _ => false end.

(** A strictly negative number or [-inf]. *)
Definition is_neg (x : f32) : bool :=
  match x with S754_finite true _ _ | S754_infinity true => true | _ => false end.

Definition ltb : f32 -> f32 -> bool := SFltb.

(** [torch.max] propagates NaN. *)
Definition max (x y : f32) : f32 :=
  if is_nan x then x else if is_nan y then y else if ltb x y then y else x.

(** [torch.nan_to_num] with its default arguments. *)
Definition nan_to_num (x : f32) : f32 :=
  match x with
  | S754_nan => zero
  | S754_infinity false => max_float
  | S754_infinity true => SFopp max_float
  | _ => x
  end.

(** The transcendental functions come from the C library.  Their values at
    the special arguments are fixed by IEEE-754 / C Annex F; their values at
    the other arguments are a parameter of the development. *)
Record Libm := { expf : f32 -> f32; erff : f32 -> f32 }.

Definition exp (lm : Libm) (x : f32) : f32 :=
  match x with
  | S754_nan => nan
  | S754_infinity false => pinf
  | S754_infinity true => zero
  | S754_zero _ => one
  | S754_finite _ _ _ => expf lm x
  end.

Definition erf (lm : Libm) (x : f32) : f32 :=
  match x with
  | S754_nan => nan
  | S754_infinity false => one
  | S754_infinity true => SFopp one
  | S754_zero _ => x
  | S754_finite _ _ _ => erff lm x
  end.

End F32.

Import F32.

(** ** Errors *)

Inductive exn : Type := RuntimeError | IndexError.

Inductive result (A : Type) : Type :=
| Ok (a : A)
| Raise (e : exn).

Arguments Ok {A} a.
Arguments Raise {A} e.

Definition rbind {A B : Type} (r : result A) (k : A -> result B) : result B :=
  match r with
  | Ok a => k a
  | Raise e => Raise e
  end.

Declare Scope result_scope.
Delimit Scope result_scope with result.
Notation "'let?' x ':=' r 'in' k" := (rbind r (fun x => k))
  (at level 10, x name, r at level 100, k at level 200) : result_scope.
Open Scope result_scope.

(** ** Tensors *)

Definition vector := list f32.

(** A two-dimensional tensor: its shape and its rows. *)
Record tensor2 : Type := T2 { rows : nat; cols : nat; data : list vector }.

Definition vget (v : vector) (j : nat) : f32 := nth j v zero.

Definition tget (t : tensor2) (i j : nat) : f32 := vget (nth i (data t) []) j.

Definition trow (t : tensor2) (i : nat) : vector :=
  map (tget t i) (seq 0 (cols t)).

Definition vinit (m : nat) (f : nat -> f32) : vector := map f (seq 0 m).

Definition tinit (n m : nat) (f : nat -> nat -> f32) : tensor2 :=
  T2 n m (map (fun i => vinit m (f i)) (seq 0 n)).

Definition wf (t : tensor2) : Prop :=
  length (data t) = rows t /\ Forall (fun r => length r = cols t) (data t).

Definition full (n m : nat) (v : f32) : tensor2 := tinit n m (fun _ _ => v).
Definition zeros (n m : nat) : tensor2 := full n m zero.
Definition ones (n m : nat) : tensor2 := full n m one.

Definition tmap (f : f32 -> f32) (t : tensor2) : tensor2 :=
  tinit (rows t) (cols t) (fun i j => f (tget t i j)).

Definition same_shape (a b : tensor2) : bool :=
  (rows a =? rows b) && (cols a =? cols b).

(** Element-wise binary operation on tensors of one shape, the shapes of the
    interface; operands of different shapes are rejected (broadcasting
    between different shapes is not modelled). *)
Definition tmap2 (f : f32 -> f32 -> f32) (a b : tensor2) : result tensor2 :=
  if same_shape a b
  then Ok (tinit (rows a) (cols a) (fun i j => f (tget a i j) (tget b i j)))
  else Raise RuntimeError.

Definition tadd : tensor2 -> tensor2 -> result tensor2 := tmap2 add.
Definition tmul : tensor2 -> tensor2 -> result tensor2 := tmap2 mul.

(** Sum of [f 0 * g 0], ..., [f (n-1) * g (n-1)], accumulated from the left. *)
Definition dot (n : nat) (f g : nat -> f32) : f32 :=
  fold_left (fun acc k => add acc (mul (f k) (g k))) (seq 0 n) zero.

Definition vsum (v : vector) : f32 := fold_left add v zero.

Definition transpose (t : tensor2) : tensor2 :=
  tinit (cols t) (rows t) (fun i j => tget t j i).

(** [a.mm(b)] *)
Definition mm (a b : tensor2) : result tensor2 :=
  if cols a =? rows b
  then Ok (tinit (rows a) (cols b)
             (fun i j => dot (cols a) (tget a i) (fun k => tget b k j)))
  else Raise RuntimeError.

(** Python slice bounds: a bound of a slice over a dimension of size [n]. *)
Definition slice_index (n : nat) (z : Z) : nat :=
  if (z <? 0)%Z then Z.to_nat (Z.max 0 (z + Z.of_nat n))
  else Nat.min (Z.to_nat z) n.

(** [t[lo:hi]] on the first dimension, with the bounds already normalised. *)
Definition row_slice (lo hi : nat) (t : tensor2) : tensor2 :=
  tinit (hi - lo) (cols t) (fun i j => tget t (lo + i) j).

Definition in_range (lo hi i : nat) : bool := (lo <=? i) && (i <? hi).

(** [t[lo:hi, lo:hi] = v] for a scalar [v]. *)
Definition fill_block (lo hi : nat) (v : f32) (t : tensor2) : tensor2 :=
  tinit (rows t) (cols t)
    (fun i j => if in_range lo hi i && in_range lo hi j then v else tget t i j).

(** [t[lo:hi, lo:hi] = s] for a tensor [s] of the shape of the block. *)
Definition assign_block (lo hi : nat) (s t : tensor2) : result tensor2 :=
  if (rows s =? hi - lo) && (cols s =? hi - lo)
  then Ok (tinit (rows t) (cols t)
             (fun i j => if in_range lo hi i && in_range lo hi j
                         then tget s (i - lo) (j - lo) else tget t i j))
  else Raise RuntimeError.

(** Python integer indexing into a dimension of size [n]. *)
Definition py_index (n : nat) (i : Z) : result nat :=
  if ((0 <=? i) && (i <? Z.of_nat n))%Z then Ok (Z.to_nat i)
  else if ((- Z.of_nat n <=? i) && (i <? 0))%Z then Ok (Z.to_nat (i + Z.of_nat n))
  else Raise IndexError.

Fixpoint rmap {A B : Type} (f : A -> result B) (l : list A) : result (list B) :=
  match l with
  | [] => Ok []
  | a :: l' => let? b := f a in let? bs := rmap f l' in Ok (b :: bs)
  end.

(** [t[idx]] for an integer tensor [idx]: the selected rows. *)
Definition index_rows (t : tensor2) (idx : list Z) : result tensor2 :=
  let? ixs := rmap (py_index (rows t)) idx in
  Ok (tinit (length ixs) (cols t) (fun i j => tget t (nth i ixs 0) j)).

(** [t.sum(dim=1)] *)
Definition sum_dim1 (t : tensor2) : vector :=
  vinit (rows t) (fun i => vsum (trow t i)).

(** ** The outside world: the clock and the standard output *)

Record World : Type :=
  { clock : nat -> string; ticks : nat; stdout : list string }.

Definition M (A : Type) : Type := World -> result A * World.

Definition ret {A : Type} (a : A) : M A := fun w => (Ok a, w).

Definition bind {A B : Type} (m : M A) (k : A -> M B) : M B :=
  fun w => match m w with
           | (Ok a, w') => k a w'
           | (Raise e, w') => (Raise e, w')
           end.

Definition lift {A : Type} (r : result A) : M A := fun w => (r, w).

(** [print(datetime.now().strftime(...))] *)
Definition print_now : M unit :=
  fun w => (Ok tt, {| clock := clock w; ticks := S (ticks w);
                      stdout := stdout w ++ [clock w (ticks w)] |}).

Declare Scope monad_scope.
Delimit Scope monad_scope with monad.
Notation "x <- m ;; k" := (bind m (fun x => k))
  (at level 61, m at next level, right associativity) : monad_scope.
Notation "m ;;; k" := (bind m (fun _ => k))
  (at level 61, right associativity) : monad_scope.

Fixpoint mmap {A B : Type} (f : A -> M B) (l : list A) : M (list B) :=
  match l with
  | [] => ret []
  | a :: l' => (b <- f a ;; bs <- mmap f l' ;; ret (b :: bs))%monad
  end.

(** ** decrease_to_max_value *)

Definition decrease_to_max_value (x : list Z) (max_value : Z) : list Z :=
  map (fun d => if (d >? max_value)%Z then max_value else d) x.

(** [torch_geometric.utils.degree(index, num_nodes)]: the number of
    occurrences of every node in [index]; an entry outside [0, num_nodes)
    is rejected by the scatter. *)
Definition degree (index : list nat) (num_nodes : nat) : result (list Z) :=
  if forallb (fun v => v <? num_nodes) index
  then Ok (map (fun v => Z.of_nat (count_occ Nat.eq_dec index v)) (seq 0 num_nodes))
  else Raise RuntimeError.

(** ** CentralityEncoding *)

Module CentralityEncoding.

Record t : Type :=
  { max_in_degree : nat; max_out_degree : nat; node_dim : nat;
    z_in : tensor2; z_out : tensor2 }.

(** [edge_index] is the pair of its two rows: sources and destinations. *)
Definition forward (self : t) (x : tensor2) (edge_index : list nat * list nat)
  : result tensor2 :=
  let num_nodes := rows x in
  let? din := degree (snd edge_index) num_nodes in
  let in_degree := decrease_to_max_value din (Z.of_nat (max_in_degree self) - 1) in
  let? dout := degree (fst edge_index) num_nodes in
  let out_degree := decrease_to_max_value dout (Z.of_nat (max_out_degree self) - 1) in
  let? zi := index_rows (z_in self) in_degree in
  let? zo := index_rows (z_out self) out_degree in
  let? z := tadd zi zo in
  tadd x z.

End CentralityEncoding.

(** ** SpatialEncoding *)

Module SpatialEncoding.

Record t : Type :=
  { num_heads : nat; embedding_size : nat;
    means : vector; stds : vector; weights_dist : vector }.

(** [torch.linalg.vector_norm(coords, ord=2, dim=1) ** 2], one per row. *)
Definition norms (coords : tensor2) : vector :=
  vinit (rows coords)
    (fun i => let n := sqrt (dot (cols coords) (tget coords i) (tget coords i)) in
              mul n n).

(** [torch.sqrt(norms - 2 * coords @ coords.T + norms.T)] *)
Definition distances (coords : tensor2) : result tensor2 :=
  let n := norms coords in
  let? g := mm (tmap (mul two) coords) (transpose coords) in
  Ok (tinit (rows coords) (rows coords)
        (fun i j => sqrt (add (sub (vget n i) (tget g i j)) (vget n j)))).

Definition vdot (u v : vector) : f32 := dot (length u) (vget u) (vget v).

(** One Gaussian head applied to a raw score. *)
Definition gbf (lm : Libm) (self : t) (s : f32) (h : nat) : f32 :=
  let d := sub s (vget (means self) h) in
  let sd := vget (stds self) h in
  exp lm (div (mul d d) (mul two (mul sd sd))).

Definition forward (lm : Libm) (self : t) (x coords : tensor2) : result tensor2 :=
  let? dist := distances coords in
  let N := rows x in
  let D := cols x in
  if negb (rows dist =? N) then Raise RuntimeError
  else if negb (2 * D + 1 =? 2 * embedding_size self + 1) then Raise RuntimeError
  else
    let concats := fun i j => trow x i ++ [tget dist i j] ++ trow x j in
    let spatial_matrix := tinit N N (fun i j => vdot (concats i j) (weights_dist self)) in
    Ok (tinit N N
          (fun i j =>
             div (vsum (vinit (num_heads self) (gbf lm self (tget spatial_matrix i j))))
                 (of_nat (num_heads self)))).

End SpatialEncoding.

(** ** EdgeEncoding *)

(** The edge paths: a dictionary from source node to a dictionary from
    destination node to the list of edge indices of the path, in the order
    the dictionary is traversed. *)
Definition edge_paths_t : Type := list (nat * list (nat * list nat)).

Module EdgeEncoding.

Record t : Type :=
  { edge_dim : nat; max_path_distance : nat; edge_weights : tensor2 }.

(** The right-hand side of the assignment in the loop body: one number per
    edge of the truncated path. *)
Definition path_encoding (self : t) (edge_attr : tensor2) (path : list nat)
  : result vector :=
  let path := firstn (max_path_distance self) path in
  let path_weights :=
    row_slice 0 (slice_index (rows (edge_weights self)) (Z.of_nat (length path)))
      (edge_weights self) in
  let? path_edge_features := index_rows edge_attr (map Z.of_nat path) in
  let? prod := tmul path_weights path_edge_features in
  Ok (sum_dim1 prod).

(** [cij[src][dst] = value] where [value] is a one-dimensional tensor: the
    copy into the scalar slot succeeds only for a tensor of one element. *)
Definition set_item (cij : tensor2) (src dst : nat) (value : vector)
  : result tensor2 :=
  if rows cij <=? src then Raise IndexError
  else if cols cij <=? dst then Raise IndexError
  else match value with
       | [e] => Ok (tinit (rows cij) (cols cij)
                      (fun i j => if (i =? src) && (j =? dst) then e else tget cij i j))
       | _ => Raise RuntimeError
       end.

Fixpoint loop_dst (self : t) (edge_attr : tensor2) (src : nat)
    (destinations : list (nat * list nat)) (cij : tensor2) : result tensor2 :=
  match destinations with
  | [] => Ok cij
  | (dst, path) :: rest =>
      let? enc := path_encoding self edge_attr path in
      let? cij' := set_item cij src dst enc in
      loop_dst self edge_attr src rest cij'
  end.

Fixpoint loop_src (self : t) (edge_attr : tensor2) (edge_paths : edge_paths_t)
    (cij : tensor2) : result tensor2 :=
  match edge_paths with
  | [] => Ok cij
  | (src, destinations) :: rest =>
      let? cij' := loop_dst self edge_attr src destinations cij in
      loop_src self edge_attr rest cij'
  end.

Definition forward (self : t) (x edge_attr : tensor2) (edge_paths : edge_paths_t)
  : M tensor2 :=
  (print_now ;;;
   cij <- lift (loop_src self edge_attr edge_paths (zeros (rows x) (rows x))) ;;
   print_now ;;;
   ret (tmap nan_to_num cij))%monad.

End EdgeEncoding.

(** ** nn.Linear, nn.LayerNorm, nn.GELU, softmax *)

Module Linear.

Record t : Type :=
  { in_features : nat; out_features : nat; weight : tensor2; bias : vector }.

(** [x @ weight.T + bias] *)
Definition forward (self : t) (x : tensor2) : result tensor2 :=
  if cols x =? in_features self
  then Ok (tinit (rows x) (out_features self)
             (fun i j => add (dot (in_features self) (tget x i) (tget (weight self) j))
                             (vget (bias self) j)))
  else Raise RuntimeError.

End Linear.

Module LayerNorm.

Record t : Type := { normalized_shape : nat; weight : vector; bias : vector }.

Definition mean (v : vector) : f32 := div (vsum v) (of_nat (length v)).

Definition var (v : vector) : f32 :=
  let m := mean v in
  div (vsum (map (fun a => mul (sub a m) (sub a m)) v)) (of_nat (length v)).

Definition forward (self : t) (x : tensor2) : result tensor2 :=
  if cols x =? normalized_shape self
  then Ok (tinit (rows x) (cols x)
             (fun i j =>
                let r := trow x i in
                let xhat := div (sub (tget x i j) (mean r)) (sqrt (add (var r) eps_1e5)) in
                add (mul xhat (vget (weight self) j)) (vget (bias self) j)))
  else Raise RuntimeError.

End LayerNorm.

(** [nn.GELU()]: [x * 0.5 * (1 + erf(x / sqrt 2))]. *)
Definition gelu (lm : Libm) (x : f32) : f32 :=
  mul (mul x half) (add one (erf lm (mul x (sqrt half)))).

(** [torch.softmax(a, dim=-1)] *)
Definition softmax_row (lm : Libm) (r : vector) : vector :=
  let m := fold_left F32.max r ninf in
  let e := map (fun a => exp lm (sub a m)) r in
  let s := vsum e in
  map (fun a => div a s) e.

Definition softmax (lm : Libm) (a : tensor2) : tensor2 :=
  tinit (rows a) (cols a) (fun i j => vget (softmax_row lm (trow a i)) j).

(** ** GraphormerAttentionHead *)

(** The consecutive pairs [(ptr[i], ptr[i+1])] visited by
    [for i in range(len(ptr) - 1)]. *)
Fixpoint blocks (ptr : list Z) : list (Z * Z) :=
  match ptr with
  | lo :: (hi :: _) as tl => (lo, hi) :: blocks tl
  | _ => []
  end.

Module GraphormerAttentionHead.

Record t : Type :=
  { edge_encoding : EdgeEncoding.t; q : Linear.t; k : Linear.t; v : Linear.t }.

(** The two masks built at the start of [forward]. *)
Definition batch_masks (N : nat) (ptr : option (list Z)) : tensor2 * tensor2 :=
  let batch_mask_neg_inf := full N N neg_1e6 in
  let batch_mask_zeros := zeros N N in
  match ptr with
  | None => (ones N N, tmap (fun a => add a one) batch_mask_zeros)
  | Some p =>
      fold_left
        (fun masks b =>
           let lo := slice_index N (fst b) in
           let hi := slice_index N (snd b) in
           (fill_block lo hi one (fst masks), fill_block lo hi one (snd masks)))
        (blocks p) (batch_mask_neg_inf, batch_mask_zeros)
  end.

Definition scale (query : tensor2) : f32 := sqrt (of_nat (cols query)).

Definition compute_a (key query : tensor2) (ptr : option (list Z)) : result tensor2 :=
  match ptr with
  | None =>
      let? qk := mm query (transpose key) in
      Ok (tmap (fun s => div s (scale query)) qk)
  | Some p =>
      fold_left
        (fun acc b =>
           let? a := acc in
           let lo := slice_index (rows query) (fst b) in
           let hi := slice_index (rows query) (snd b) in
           let lok := slice_index (rows key) (fst b) in
           let hik := slice_index (rows key) (snd b) in
           let? qk := mm (row_slice lo hi query) (transpose (row_slice lok hik key)) in
           assign_block lo hi (tmap (fun s => div s (scale query)) qk) a)
        (blocks p) (Ok (zeros (rows query) (rows query)))
  end.

(** The intermediate tensors of [forward]: the masked scores before the
    softmax, the attention weights after the softmax and its mask, and the
    projected values. *)
Record trace : Type :=
  { masked_scores : tensor2; softmax_scores : tensor2;
    weights : tensor2; values : tensor2 }.

Definition forward_trace (lm : Libm) (self : t) (x edge_attr b : tensor2)
    (edge_paths : edge_paths_t) (ptr : option (list Z)) : M trace :=
  (let masks := batch_masks (rows x) ptr in
   let batch_mask_neg_inf := fst masks in
   let batch_mask_zeros := snd masks in
   query <- lift (Linear.forward (q self) x) ;;
   key <- lift (Linear.forward (k self) x) ;;
   value <- lift (Linear.forward (v self) x) ;;
   c <- EdgeEncoding.forward (edge_encoding self) x edge_attr edge_paths ;;
   a <- lift (compute_a key query ptr) ;;
   ab <- lift (tadd a b) ;;
   abc <- lift (tadd ab c) ;;
   a' <- lift (tmul abc batch_mask_neg_inf) ;;
   sm <- lift (tmul (softmax lm a') batch_mask_zeros) ;;
   ret {| masked_scores := a'; softmax_scores := softmax lm a';
          weights := sm; values := value |})%monad.

Definition forward (lm : Libm) (self : t) (x edge_attr b : tensor2)
    (edge_paths : edge_paths_t) (ptr : option (list Z)) : M tensor2 :=
  (tr <- forward_trace lm self x edge_attr b edge_paths ptr ;;
   lift (mm (weights tr) (values tr)))%monad.

End GraphormerAttentionHead.

(** ** GraphormerMultiHeadAttention *)

(** [torch.cat(ts, dim=-1)] of two-dimensional tensors. *)
Definition cat_cols (ts : list tensor2) : result tensor2 :=
  match ts with
  | [] => Raise RuntimeError
  | t0 :: _ =>
      if forallb (fun t => rows t =? rows t0) ts
      then Ok (T2 (rows t0) (list_sum (map cols ts))
                 (map (fun i => concat (map (fun t => trow t i) ts)) (seq 0 (rows t0))))
      else Raise RuntimeError
  end.

Module GraphormerMultiHeadAttention.

Record t : Type := { heads : list GraphormerAttentionHead.t; linear : Linear.t }.

Definition forward (lm : Libm) (self : t) (x edge_attr b : tensor2)
    (edge_paths : edge_paths_t) (ptr : option (list Z)) : M tensor2 :=
  (outs <- mmap (fun attention_head =>
                   GraphormerAttentionHead.forward lm attention_head
                     x edge_attr b edge_paths ptr) (heads self) ;;
   cat <- lift (cat_cols outs) ;;
   lift (Linear.forward (linear self) cat))%monad.

End GraphormerMultiHeadAttention.

(** ** GraphormerEncoderLayer *)

Module GraphormerEncoderLayer.

Record t : Type :=
  { node_dim : nat; edge_dim : nat; n_heads : nat; ff_dim : nat;
    attention : GraphormerMultiHeadAttention.t;
    ln_1 : LayerNorm.t; ln_2 : LayerNorm.t;
    ff_0 : Linear.t; ff_2 : Linear.t }.

(** [self.ff]: Linear, GELU, Linear. *)
Definition ff (lm : Libm) (self : t) (x : tensor2) : result tensor2 :=
  let? h := Linear.forward (ff_0 self) x in
  Linear.forward (ff_2 self) (tmap (gelu lm) h).

Definition forward (lm : Libm) (self : t) (x edge_attr b : tensor2)
    (edge_paths : edge_paths_t) (ptr : option (list Z)) : M tensor2 :=
  (n1 <- lift (LayerNorm.forward (ln_1 self) x) ;;
   att <- GraphormerMultiHeadAttention.forward lm (attention self)
            n1 edge_attr b edge_paths ptr ;;
   x_prime <- lift (tadd att x) ;;
   n2 <- lift (LayerNorm.forward (ln_2 self) x_prime) ;;
   f <- lift (ff lm self n2) ;;
   x_new <- lift (tadd f x_prime) ;;
   ret x_new)%monad.

End GraphormerEncoderLayer.

(** * Specification-level definitions *)

(** The degree of node [v] in [index], clamped to the last row of a table of
    [max_degree] rows. *)
Definition clamped_degree (index : list nat) (max_degree : nat) (v : nat) : nat :=
  Nat.min (count_occ Nat.eq_dec index v) (max_degree - 1).

(** Node [i] lies in the slice [lo:hi] of a dimension of size [N]. *)
Definition in_block (N : nat) (b : Z * Z) (i : nat) : bool :=
  in_range (slice_index N (fst b)) (slice_index N (snd b)) i.

(** Some block of the batch pointer contains both [i] and [j]. *)
Definition same_block (N : nat) (ptr : list Z) (i j : nat) : bool :=
  existsb (fun b => in_block N b i && in_block N b j) (blocks ptr).

(** The scaled dot product of row [i] of the queries and row [j] of the keys,
    with [d_k] the number of columns of the keys. *)
Definition scaled_dot (key query : tensor2) (i j : nat) : f32 :=
  div (dot (cols key) (tget query i) (tget key j)) (sqrt (of_nat (cols key))).

(** The number under the square root of [SpatialEncoding.distances] for two
    copies of the row [r] of [m] coordinates: [n - (2 r) . r + n] with
    [n = (sqrt (r . r))^2]. *)
Definition radicand (m : nat) (r : vector) : f32 :=
  let n := (let s := sqrt (dot m (vget r) (vget r)) in mul s s) in
  add (sub n (dot m (fun k => mul two (vget r k)) (vget r))) n.

(** The shapes that [GraphormerEncoderLayer.__init__] gives to the layer
    norms, to the feed-forward network and to the output projection of the
    attention. *)
Definition configured (self : GraphormerEncoderLayer.t) : Prop :=
  let d := GraphormerEncoderLayer.node_dim self in
  LayerNorm.normalized_shape (GraphormerEncoderLayer.ln_1 self) = d /\
  LayerNorm.normalized_shape (GraphormerEncoderLayer.ln_2 self) = d /\
  Linear.in_features (GraphormerEncoderLayer.ff_0 self) = d /\
  Linear.out_features (GraphormerEncoderLayer.ff_0 self)
    = GraphormerEncoderLayer.ff_dim self /\
  Linear.in_features (GraphormerEncoderLayer.ff_2 self)
    = GraphormerEncoderLayer.ff_dim self /\
  Linear.out_features (GraphormerEncoderLayer.ff_2 self) = d /\
  Linear.out_features
    (GraphormerMultiHeadAttention.linear (GraphormerEncoderLayer.attention self)) = d.

(** The pre-norm residual block as the specification words it:
    [x' = MHA(LayerNorm(x)) + x] and [x_out = FFN(LayerNorm(x')) + x'] with
    [FFN = Linear, GELU, Linear]; [mha] is the value of [MHA(LayerNorm(x))]. *)
Definition prenorm_residual_block (lm : Libm) (self : GraphormerEncoderLayer.t)
    (x mha x_out : tensor2) : Prop :=
  exists x_prime n2 h,
    tadd mha x = Ok x_prime /\
    LayerNorm.forward (GraphormerEncoderLayer.ln_2 self) x_prime = Ok n2 /\
    Linear.forward (GraphormerEncoderLayer.ff_0 self) n2 = Ok h /\
    exists f,
      Linear.forward (GraphormerEncoderLayer.ff_2 self) (tmap (gelu lm) h) = Ok f /\
      tadd f x_prime = Ok x_out.

(** The value of a computation does not depend on the clock or on what was
    printed before. *)
Definition oblivious {A : Type} (m : M A) : Prop :=
  forall w1 w2 : World, fst (m w1) = fst (m w2).

(** ** Concrete inputs used to run the definitions *)

Definition centrality_example : CentralityEncoding.t :=
  {| CentralityEncoding.max_in_degree := 4;
     CentralityEncoding.max_out_degree := 4;
     CentralityEncoding.node_dim := 4;
     CentralityEncoding.z_in :=
       tinit 4 4 (fun i j => of_Z (Z.of_nat (10 * i + j)));
     CentralityEncoding.z_out :=
       tinit 4 4 (fun i j => of_Z (Z.of_nat (100 * i + j))) |}.

Definition world0 : World :=
  {| clock := fun _ => EmptyString; ticks := 0; stdout := [] |}.

(** A tensor of shape (n, m) with the given integer entries. *)
Definition tensor_of_Z (n m : nat) (l : list (list Z)) : tensor2 :=
  tinit n m (fun i j => of_Z (nth j (nth i l []) 0%Z)).

(** An edge encoding with [max_path_distance = 2] over one edge feature,
    both learned weights equal to one. *)
Definition edge_encoding_example : EdgeEncoding.t :=
  {| EdgeEncoding.edge_dim := 1;
     EdgeEncoding.max_path_distance := 2;
     EdgeEncoding.edge_weights := tensor_of_Z 2 1 [[1]; [1]]%Z |}.

(** Seven edges with feature one. *)
Definition edge_attr_example : tensor2 := ones 7 1.

(** A C library whose [expf] and [erff] are constant: enough to run the
    definitions where the argument is special or the value is irrelevant. *)
Definition libm_example : Libm := {| expf := fun _ => one; erff := fun _ => zero |}.

Definition linear_zero (n_in n_out : nat) : Linear.t :=
  {| Linear.in_features := n_in; Linear.out_features := n_out;
     Linear.weight := zeros n_out n_in; Linear.bias := vinit n_out (fun _ => zero) |}.

(** A head with [dim_in = dim_q = dim_k = 1]. *)
Definition head_example : GraphormerAttentionHead.t :=
  {| GraphormerAttentionHead.edge_encoding := edge_encoding_example;
     GraphormerAttentionHead.q := linear_zero 1 1;
     GraphormerAttentionHead.k := linear_zero 1 1;
     GraphormerAttentionHead.v := linear_zero 1 1 |}.

(** A head with [dim_in = 1], [dim_q = 1] and [dim_k = 2]. *)
Definition head_q1_k2 : GraphormerAttentionHead.t :=
  {| GraphormerAttentionHead.edge_encoding := edge_encoding_example;
     GraphormerAttentionHead.q := linear_zero 1 1;
     GraphormerAttentionHead.k := linear_zero 1 2;
     GraphormerAttentionHead.v := linear_zero 1 2 |}.

(** One spatial head over one node feature, all learned weights zero. *)
Definition spatial_example : SpatialEncoding.t :=
  {| SpatialEncoding.num_heads := 1; SpatialEncoding.embedding_size := 1;
     SpatialEncoding.means := [zero]; SpatialEncoding.stds := [one];
     SpatialEncoding.weights_dist := [zero; zero; zero] |}.

Definition layernorm_example : LayerNorm.t :=
  {| LayerNorm.normalized_shape := 1; LayerNorm.weight := [one]; LayerNorm.bias := [zero] |}.

(** An encoder layer with [node_dim = 1], one head and [ff_dim = 2]. *)
Definition layer_example : GraphormerEncoderLayer.t :=
  {| GraphormerEncoderLayer.node_dim := 1;
     GraphormerEncoderLayer.edge_dim := 1;
     GraphormerEncoderLayer.n_heads := 1;
     GraphormerEncoderLayer.ff_dim := 2;
     GraphormerEncoderLayer.attention :=
       {| GraphormerMultiHeadAttention.heads := [head_example];
          GraphormerMultiHeadAttention.linear := linear_zero 1 1 |};
     GraphormerEncoderLayer.ln_1 := layernorm_example;
     GraphormerEncoderLayer.ln_2 := layernorm_example;
     GraphormerEncoderLayer.ff_0 := linear_zero 1 2;
     GraphormerEncoderLayer.ff_2 := linear_zero 2 1 |}.

(** A spatial encoding without a head. *)
Definition spatial_no_head_example : SpatialEncoding.t :=
  {| SpatialEncoding.num_heads := 0; SpatialEncoding.embedding_size := 1;
     SpatialEncoding.means := []; SpatialEncoding.stds := [];
     SpatialEncoding.weights_dist := [zero; zero; zero] |}.

(** The pair (i, j) is a key of the edge paths. *)
Definition listed (edge_paths : edge_paths_t) (i j : nat) : Prop :=
  exists destinations path, In (i, destinations) edge_paths /\ In (j, path) destinations.

(** The edge paths with every path cut to its first [n] edges. *)
Definition truncate_paths (n : nat) (edge_paths : edge_paths_t) : edge_paths_t :=
  map (fun sd => (fst sd, map (fun dp => (fst dp, firstn n (snd dp))) (snd sd))) edge_paths.

(** The keys of a dictionary are distinct. *)
Definition distinct_keys (edge_paths : edge_paths_t) : Prop :=
  NoDup (map fst edge_paths) /\
  Forall (fun sd => NoDup (map fst (snd sd))) edge_paths.

(** Every path of the mapping has, after truncation, exactly one edge, and
    that edge is an edge of [edge_attr]. *)
Definition one_edge_paths (self : EdgeEncoding.t) (edge_attr : tensor2)
    (edge_paths : edge_paths_t) : Prop :=
  forall src destinations dst path,
    In (src, destinations) edge_paths -> In (dst, path) destinations ->
    exists e0, firstn (EdgeEncoding.max_path_distance self) path = [e0] /\
               e0 < rows edge_attr.

(** The world after [n] more timestamps have been printed. *)
Definition printed (w : World) (n : nat) : World :=
  {| clock := clock w; ticks := ticks w + n;
     stdout := stdout w ++ map (clock w) (seq (ticks w) n) |}.

(** A batch pointer over [N] nodes: offsets that start at 0, end at [N] and
    never decrease. *)
Definition batch_pointer (N : nat) (p : list Z) : Prop :=
  hd_error p = Some 0%Z /\ last p 0%Z = Z.of_nat N /\ StronglySorted Z.le p.
(** * Properties *)

(** ** Tensors built by [tinit] *)

Lemma nth_map_seq {A : Type} (f : nat -> A) (n i : nat) (d : A) :
  i < n -> nth i (map f (seq 0 n)) d = f i.
Proof.
  intros Hi.
  rewrite (nth_indep _ d (f 0)) by (rewrite length_map, length_seq; exact Hi).
  pose proof (map_nth f (seq 0 n) 0 i) as E. rewrite E, seq_nth by exact Hi.
  reflexivity.
Qed.

Lemma vget_vinit (m : nat) (f : nat -> f32) (j : nat) :
  j < m -> vget (vinit m f) j = f j.
Proof. intros Hj. unfold vget, vinit. now apply nth_map_seq. Qed.

Lemma length_vinit (m : nat) (f : nat -> f32) : length (vinit m f) = m.
Proof. unfold vinit. now rewrite length_map, length_seq. Qed.

Lemma vinit_ext (m : nat) (f g : nat -> f32) :
  (forall j, j < m -> f j = g j) -> vinit m f = vinit m g.
Proof.
  intros H. unfold vinit. apply map_ext_in.
  intros j Hj. apply in_seq in Hj. apply H. lia.
Qed.

Lemma tget_tinit (n m : nat) (f : nat -> nat -> f32) (i j : nat) :
  i < n -> j < m -> tget (tinit n m f) i j = f i j.
Proof.
  intros Hi Hj. unfold tget, tinit. cbn [data].
  rewrite nth_map_seq by exact Hi. now apply vget_vinit.
Qed.

Lemma rows_tinit (n m : nat) (f : nat -> nat -> f32) : rows (tinit n m f) = n.
Proof. reflexivity. Qed.

Lemma cols_tinit (n m : nat) (f : nat -> nat -> f32) : cols (tinit n m f) = m.
Proof. reflexivity. Qed.

Lemma rows_transpose (t : tensor2) : rows (transpose t) = cols t.
Proof. reflexivity. Qed.

Lemma cols_transpose (t : tensor2) : cols (transpose t) = rows t.
Proof. reflexivity. Qed.

Lemma rows_row_slice (lo hi : nat) (t : tensor2) : rows (row_slice lo hi t) = hi - lo.
Proof. reflexivity. Qed.

Lemma cols_row_slice (lo hi : nat) (t : tensor2) : cols (row_slice lo hi t) = cols t.
Proof. reflexivity. Qed.

Lemma rows_tmap (f : f32 -> f32) (t : tensor2) : rows (tmap f t) = rows t.
Proof. reflexivity. Qed.

Lemma cols_tmap (f : f32 -> f32) (t : tensor2) : cols (tmap f t) = cols t.
Proof. reflexivity. Qed.

Create Rewrite HintDb shape.
#[local] Hint Rewrite rows_tinit cols_tinit rows_transpose cols_transpose
  rows_row_slice cols_row_slice rows_tmap cols_tmap : shape.

Ltac shapes := autorewrite with shape in *.

Lemma tinit_ext (n m : nat) (f g : nat -> nat -> f32) :
  (forall i j, i < n -> j < m -> f i j = g i j) -> tinit n m f = tinit n m g.
Proof.
  intros H. unfold tinit. f_equal. apply map_ext_in.
  intros i Hi. apply in_seq in Hi. apply vinit_ext. intros j Hj. apply H; lia.
Qed.

Lemma wf_tinit (n m : nat) (f : nat -> nat -> f32) : wf (tinit n m f).
Proof.
  split; cbn.
  - now rewrite length_map, length_seq.
  - apply Forall_forall. intros r Hr. apply in_map_iff in Hr.
    destruct Hr as [i [<- _]]. apply length_vinit.
Qed.

Lemma tmap2_ok (f : f32 -> f32 -> f32) (a b : tensor2) :
  rows a = rows b -> cols a = cols b ->
  tmap2 f a b = Ok (tinit (rows a) (cols a) (fun i j => f (tget a i j) (tget b i j))).
Proof.
  intros Hr Hc. unfold tmap2, same_shape.
  rewrite Hr, Hc, !Nat.eqb_refl. reflexivity.
Qed.

Lemma tmap2_inv (f : f32 -> f32 -> f32) (a b c : tensor2) :
  tmap2 f a b = Ok c ->
  rows a = rows b /\ cols a = cols b /\
  c = tinit (rows a) (cols a) (fun i j => f (tget a i j) (tget b i j)).
Proof.
  unfold tmap2, same_shape. intros H.
  destruct (rows a =? rows b) eqn:Hr; [| discriminate].
  destruct (cols a =? cols b) eqn:Hc; [| discriminate].
  apply Nat.eqb_eq in Hr, Hc. cbn in H. inversion H. auto.
Qed.

Lemma rmap_map_ok {A B C : Type} (f : B -> result C) (g : A -> B) (h : A -> C)
    (l : list A) :
  (forall a, In a l -> f (g a) = Ok (h a)) -> rmap f (map g l) = Ok (map h l).
Proof.
  induction l as [| a l IH]; intros H; cbn.
  - reflexivity.
  - rewrite H by (left; reflexivity). cbn.
    rewrite IH by (intros; apply H; right; assumption). reflexivity.
Qed.

Lemma py_index_of_nat (n c : nat) : c < n -> py_index n (Z.of_nat c) = Ok c.
Proof.
  intros H. unfold py_index.
  replace ((0 <=? Z.of_nat c)%Z && (Z.of_nat c <? Z.of_nat n)%Z) with true.
  - now rewrite Nat2Z.id.
  - symmetry. apply andb_true_iff. split; [apply Z.leb_le | apply Z.ltb_lt]; lia.
Qed.

(** ** CentralityEncoding *)

Lemma clamped_degree_lt (index : list nat) (max_degree v : nat) :
  1 <= max_degree -> clamped_degree index max_degree v < max_degree.
Proof. unfold clamped_degree. lia. Qed.

Lemma degree_ok (index : list nat) (n : nat) :
  Forall (fun v => v < n) index ->
  degree index n = Ok (map (fun v => Z.of_nat (count_occ Nat.eq_dec index v)) (seq 0 n)).
Proof.
  intros H. unfold degree.
  replace (forallb (fun v => v <? n) index) with true; [reflexivity |].
  symmetry. apply forallb_forall. intros v Hv.
  apply Nat.ltb_lt. rewrite Forall_forall in H. now apply H.
Qed.

Lemma decrease_to_max_value_degree (index : list nat) (max_degree : nat) (l : list nat) :
  1 <= max_degree ->
  decrease_to_max_value
    (map (fun v => Z.of_nat (count_occ Nat.eq_dec index v)) l)
    (Z.of_nat max_degree - 1)
  = map (fun v => Z.of_nat (clamped_degree index max_degree v)) l.
Proof.
  intros Hm. unfold decrease_to_max_value. rewrite map_map.
  apply map_ext. intros v. unfold clamped_degree.
  destruct (Z.gtb_spec (Z.of_nat (count_occ Nat.eq_dec index v)) (Z.of_nat max_degree - 1)).
  - rewrite Nat.min_r by lia. lia.
  - rewrite Nat.min_l by lia. reflexivity.
Qed.

Lemma index_rows_clamped (z : tensor2) (index : list nat) (max_degree n : nat) :
  1 <= max_degree -> rows z = max_degree ->
  index_rows z (map (fun v => Z.of_nat (clamped_degree index max_degree v)) (seq 0 n))
  = Ok (tinit n (cols z) (fun i j => tget z (clamped_degree index max_degree i) j)).
Proof.
  intros Hm Hz. unfold index_rows.
  rewrite (rmap_map_ok (py_index (rows z))
             (fun v => Z.of_nat (clamped_degree index max_degree v))
             (clamped_degree index max_degree)).
  - cbn. rewrite length_map, length_seq. f_equal. apply tinit_ext.
    intros i j Hi _. now rewrite nth_map_seq.
  - intros v _. apply py_index_of_nat. rewrite Hz. now apply clamped_degree_lt.
Qed.

Section CentralityEncodingSpec.

Import CentralityEncoding.

Variable self : CentralityEncoding.t.
Variable x : tensor2.
Variables src dst : list nat.

Hypothesis Hx : cols x = node_dim self.
Hypothesis Hin : rows (z_in self) = max_in_degree self /\ cols (z_in self) = node_dim self.
Hypothesis Hout : rows (z_out self) = max_out_degree self /\ cols (z_out self) = node_dim self.
Hypothesis Hmax_in : 1 <= max_in_degree self.
Hypothesis Hmax_out : 1 <= max_out_degree self.
Hypothesis Hsrc : Forall (fun v => v < rows x) src.
Hypothesis Hdst : Forall (fun v => v < rows x) dst.

Lemma centrality_forward_ok :
  forward self x (src, dst)
  = Ok (tinit (rows x) (cols x)
          (fun i j =>
             add (tget x i j)
                 (add (tget (z_in self) (clamped_degree dst (max_in_degree self) i) j)
                      (tget (z_out self) (clamped_degree src (max_out_degree self) i) j)))).
Proof.
  destruct Hin as [Hin_r Hin_c], Hout as [Hout_r Hout_c].
  unfold forward. cbn [fst snd].
  rewrite (degree_ok _ _ Hdst). cbn [rbind].
  rewrite (degree_ok _ _ Hsrc). cbn [rbind].
  rewrite !decrease_to_max_value_degree by assumption.
  rewrite !index_rows_clamped by assumption. cbn [rbind].
  unfold tadd. rewrite tmap2_ok by (cbn; congruence). cbn [rbind rows cols].
  rewrite tmap2_ok by (cbn; congruence).
  f_equal. apply tinit_ext. intros i j Hi Hj.
  rewrite !rows_tinit, !cols_tinit.
  rewrite !tget_tinit by congruence. reflexivity.
Qed.

End CentralityEncodingSpec.

(** C6. For a node feature matrix [x] of shape (N, D), tables [z_in] and
    [z_out] of [max_in_degree] and [max_out_degree] rows (at least one each)
    of width D, and an edge index over the N nodes,
    [CentralityEncoding.forward] returns a matrix of the shape of [x] whose
    row [i] is [x[i] + (z_in[din] + z_out[dout])], where [din] is the number
    of edges with destination [i] clamped to [max_in_degree - 1] and [dout]
    the number of edges with source [i] clamped to [max_out_degree - 1]; the
    clamped degrees are valid rows of the tables, and a degree at or above
    the table size selects the last row.  In the scenario with three nodes
    and the edges (0,1) and (1,2) with tables of four rows, node 0 gets
    [z_in[0]] and [z_out[1]], node 1 gets [z_in[1]] and [z_out[1]], node 2
    gets [z_in[1]] and [z_out[0]]. *)
Theorem centrality_forward_clamped
    (self : CentralityEncoding.t) (x : tensor2) (src dst : list nat) :
  let max_in := CentralityEncoding.max_in_degree self in
  let max_out := CentralityEncoding.max_out_degree self in
  let z_in := CentralityEncoding.z_in self in
  let z_out := CentralityEncoding.z_out self in
  cols x = CentralityEncoding.node_dim self ->
  rows z_in = max_in /\ cols z_in = CentralityEncoding.node_dim self ->
  rows z_out = max_out /\ cols z_out = CentralityEncoding.node_dim self ->
  1 <= max_in -> 1 <= max_out ->
  Forall (fun v => v < rows x) src ->
  Forall (fun v => v < rows x) dst ->
  exists y,
    CentralityEncoding.forward self x (src, dst) = Ok y /\
    rows y = rows x /\ cols y = cols x /\
    (forall i, i < rows x ->
       let din := clamped_degree dst max_in i in
       let dout := clamped_degree src max_out i in
       din < rows z_in /\ dout < rows z_out /\
       (max_in <= count_occ Nat.eq_dec dst i -> din = max_in - 1) /\
       (count_occ Nat.eq_dec dst i < max_in -> din = count_occ Nat.eq_dec dst i) /\
       (max_out <= count_occ Nat.eq_dec src i -> dout = max_out - 1) /\
       (count_occ Nat.eq_dec src i < max_out -> dout = count_occ Nat.eq_dec src i) /\
       forall j, j < cols x ->
         tget y i j = add (tget x i j) (add (tget z_in din j) (tget z_out dout j))) /\
    (rows x = 3 -> src = [0; 1] -> dst = [1; 2] -> max_in = 4 -> max_out = 4 ->
     forall j, j < cols x ->
       tget y 0 j = add (tget x 0 j) (add (tget z_in 0 j) (tget z_out 1 j)) /\
       tget y 1 j = add (tget x 1 j) (add (tget z_in 1 j) (tget z_out 1 j)) /\
       tget y 2 j = add (tget x 2 j) (add (tget z_in 1 j) (tget z_out 0 j))).
Proof.
  intros max_in max_out z_in z_out Hx Hin Hout Hmi Hmo Hsrc Hdst.
  eexists. split; [apply centrality_forward_ok; assumption |].
  split; [reflexivity |]. split; [reflexivity |]. split.
  - intros i Hi din dout.
    assert (Hdin : din < max_in) by (apply clamped_degree_lt; assumption).
    assert (Hdout : dout < max_out) by (apply clamped_degree_lt; assumption).
    destruct Hin as [Hin _], Hout as [Hout _].
    repeat split.
    + fold z_in. lia.
    + fold z_out. lia.
    + intros H. unfold din, clamped_degree. lia.
    + intros H. unfold din, clamped_degree. lia.
    + intros H. unfold dout, clamped_degree. lia.
    + intros H. unfold dout, clamped_degree. lia.
    + intros j Hj. rewrite tget_tinit by assumption. reflexivity.
  - intros HN Es Ed Ei Eo j Hj. subst src dst.
    rewrite !tget_tinit by lia.
    fold max_in max_out. rewrite Ei, Eo. repeat split.
Qed.

Lemma centrality_forward_clamped_witness :
  exists y,
    CentralityEncoding.forward centrality_example (zeros 3 4) ([0; 1], [1; 2]) = Ok y /\
    tget y 0 0 = of_Z 100 /\ tget y 1 3 = of_Z 116 /\ tget y 2 1 = of_Z 12.
Proof.
  destruct (centrality_forward_clamped centrality_example (zeros 3 4) [0; 1] [1; 2])
    as [y [Hy [_ [_ [_ Hs]]]]].
  - reflexivity.
  - split; reflexivity.
  - split; reflexivity.
  - cbn; lia.
  - cbn; lia.
  - repeat constructor.
  - repeat constructor.
  - exists y. split; [exact Hy |].
    assert (H0 := Hs eq_refl eq_refl eq_refl eq_refl eq_refl 0 ltac:(cbn; lia)).
    assert (H1 := Hs eq_refl eq_refl eq_refl eq_refl eq_refl 1 ltac:(cbn; lia)).
    assert (H3 := Hs eq_refl eq_refl eq_refl eq_refl eq_refl 3 ltac:(cbn; lia)).
    destruct H0 as [H00 _], H1 as [_ [_ H21]], H3 as [_ [H13 _]].
    rewrite H00, H21, H13. repeat split; vm_compute; reflexivity.
Defined.

(** ** EdgeEncoding *)

Lemma edge_path_encoding_length
    (self : EdgeEncoding.t) (edge_attr : tensor2) (path : list nat) (enc : vector) :
  EdgeEncoding.path_encoding self edge_attr path = Ok enc ->
  length enc = length (firstn (EdgeEncoding.max_path_distance self) path).
Proof.
  unfold EdgeEncoding.path_encoding, index_rows.
  destruct (rmap _ _) as [ixs |] eqn:Hix; cbn [rbind]; [| discriminate].
  assert (Hlen : length ixs = length (firstn (EdgeEncoding.max_path_distance self) path)).
  { revert ixs Hix.
    generalize (firstn (EdgeEncoding.max_path_distance self) path) as p.
    induction p as [| a p IH]; cbn; intros ixs H.
    - inversion H. reflexivity.
    - destruct (py_index _ _); cbn in H; [| discriminate].
      destruct (rmap _ _) as [ixs' |]; cbn in H; [| discriminate].
      inversion H. cbn. now rewrite (IH ixs'). }
  intros H. destruct (tmul _ _) as [prod |] eqn:Hp; cbn [rbind] in H; [| discriminate].
  inversion H. unfold sum_dim1. rewrite length_vinit.
  apply tmap2_inv in Hp. destruct Hp as [Hr [_ ->]].
  rewrite rows_tinit. rewrite Hr, rows_tinit. exact Hlen.
Qed.

Lemma edge_set_item_ok (cij c' : tensor2) (src dst : nat) (value : vector) :
  EdgeEncoding.set_item cij src dst value = Ok c' ->
  src < rows cij /\ dst < cols cij /\ rows c' = rows cij /\ cols c' = cols cij /\
  exists e, value = [e] /\
    c' = tinit (rows cij) (cols cij)
           (fun i j => if (i =? src) && (j =? dst) then e else tget cij i j).
Proof.
  unfold EdgeEncoding.set_item.
  destruct (Nat.leb_spec (rows cij) src); [discriminate |].
  destruct (Nat.leb_spec (cols cij) dst); [discriminate |].
  destruct value as [| e [| e' value]]; try discriminate.
  intros Hok. inversion Hok. repeat split; try assumption. now exists e.
Qed.

(** The loops return only when every visited path has exactly one edge
    after truncation. *)
Lemma edge_loop_dst_single (self : EdgeEncoding.t) (edge_attr : tensor2) (src : nat)
    (destinations : list (nat * list nat)) (cij c' : tensor2) :
  EdgeEncoding.loop_dst self edge_attr src destinations cij = Ok c' ->
  forall dst path, In (dst, path) destinations ->
    length (firstn (EdgeEncoding.max_path_distance self) path) = 1.
Proof.
  revert cij. induction destinations as [| [d p] rest IH]; cbn; intros cij H dst path Hin.
  - contradiction.
  - destruct (EdgeEncoding.path_encoding self edge_attr p) as [enc |] eqn:He;
      cbn [rbind] in H; [| discriminate].
    destruct (EdgeEncoding.set_item cij src d enc) as [c1 |] eqn:Hs;
      cbn [rbind] in H; [| discriminate].
    destruct Hin as [Heq | Hin].
    + inversion Heq; subst d p.
      apply edge_path_encoding_length in He.
      apply edge_set_item_ok in Hs. destruct Hs as [_ [_ [_ [_ [e [-> _]]]]]].
      now rewrite <- He.
    + exact (IH c1 H dst path Hin).
Qed.

Lemma edge_loop_src_single (self : EdgeEncoding.t) (edge_attr : tensor2)
    (edge_paths : edge_paths_t) (cij c' : tensor2) :
  EdgeEncoding.loop_src self edge_attr edge_paths cij = Ok c' ->
  forall src destinations dst path,
    In (src, destinations) edge_paths -> In (dst, path) destinations ->
    length (firstn (EdgeEncoding.max_path_distance self) path) = 1.
Proof.
  revert cij. induction edge_paths as [| [s ds] rest IH]; cbn;
    intros cij H src destinations dst path Hin Hin'.
  - contradiction.
  - destruct (EdgeEncoding.loop_dst self edge_attr s ds cij) as [c1 |] eqn:Hd;
      cbn [rbind] in H; [| discriminate].
    destruct Hin as [Heq | Hin].
    + inversion Heq; subst s ds. exact (edge_loop_dst_single _ _ _ _ _ _ Hd dst path Hin').
    + exact (IH c1 H src destinations dst path Hin Hin').
Qed.

Lemma edge_forward_value (self : EdgeEncoding.t) (x edge_attr : tensor2)
    (edge_paths : edge_paths_t) (w : World) :
  fst (EdgeEncoding.forward self x edge_attr edge_paths w)
  = let? cij := EdgeEncoding.loop_src self edge_attr edge_paths (zeros (rows x) (rows x)) in
    Ok (tmap nan_to_num cij).
Proof.
  unfold EdgeEncoding.forward, bind, lift, ret, print_now.
  destruct (EdgeEncoding.loop_src _ _ _ _); reflexivity.
Qed.

(** With an empty mapping the result is the zero matrix. *)
Lemma edge_forward_empty (self : EdgeEncoding.t) (x edge_attr : tensor2) (w : World) :
  fst (EdgeEncoding.forward self x edge_attr [] w) = Ok (zeros (rows x) (rows x)).
Proof.
  rewrite edge_forward_value. cbn [EdgeEncoding.loop_src rbind].
  f_equal. unfold tmap, zeros, full. rewrite rows_tinit, cols_tinit.
  apply tinit_ext. intros i j Hi Hj. now rewrite tget_tinit.
Qed.

(** A path of one edge is stored: entry [0][1] is the product of the
    first learned weight and the feature of edge 3. *)
Example edge_forward_single_edge :
  fst (EdgeEncoding.forward edge_encoding_example (zeros 2 1) edge_attr_example
         [(0, [(1, [3])])] world0)
  = Ok (tensor_of_Z 2 2 [[0; 1]; [0; 0]]%Z).
Proof. vm_compute. reflexivity. Qed.

(** C1. At a path of seven edges with [max_path_distance = 2] the right-hand
    side of the assignment is the vector of the two per-edge products, not
    their sum, and [EdgeEncoding.forward] raises instead of storing the sum
    (1 * 1 + 1 * 1 = 2) at entry [0][1]. *)
Theorem edge_forward_long_path_raises :
  EdgeEncoding.path_encoding edge_encoding_example edge_attr_example [0; 1; 2; 3; 4; 5; 6]
    = Ok [one; one] /\
  fst (EdgeEncoding.forward edge_encoding_example (zeros 2 1) edge_attr_example
         [(0, [(1, [0; 1; 2; 3; 4; 5; 6])])] world0)
    = Raise RuntimeError.
Proof. split; vm_compute; reflexivity. Qed.

(** C4. At a pair whose path is the empty sequence the right-hand side of the
    assignment is the empty vector, and [EdgeEncoding.forward] raises instead
    of leaving a zero at entry [0][0]. *)
Theorem edge_forward_empty_path_raises :
  EdgeEncoding.path_encoding edge_encoding_example edge_attr_example [] = Ok [] /\
  fst (EdgeEncoding.forward edge_encoding_example (zeros 2 1) edge_attr_example
         [(0, [(0, [])])] world0)
    = Raise RuntimeError.
Proof. split; vm_compute; reflexivity. Qed.

(** ** The state-and-error monad *)

Lemma bind_ok_inv {A B : Type} (m : M A) (k : A -> M B) (w w' : World) (b : B) :
  bind m k w = (Ok b, w') ->
  exists a w1, m w = (Ok a, w1) /\ k a w1 = (Ok b, w').
Proof.
  unfold bind. destruct (m w) as [[a | e] w1]; intros H.
  - now exists a, w1.
  - discriminate.
Qed.

Lemma lift_ok_inv {A : Type} (r : result A) (w w' : World) (a : A) :
  lift r w = (Ok a, w') -> r = Ok a /\ w' = w.
Proof. unfold lift. intros H. inversion H. auto. Qed.

Lemma bind_lift_ok_inv {A B : Type} (r : result A) (k : A -> M B)
    (w w' : World) (b : B) :
  bind (lift r) k w = (Ok b, w') -> exists a, r = Ok a /\ k a w = (Ok b, w').
Proof.
  intros H. apply bind_ok_inv in H. destruct H as [a [w1 [H1 H2]]].
  apply lift_ok_inv in H1. destruct H1 as [-> ->]. now exists a.
Qed.

(** ** Block-diagonal masks *)

Lemma dot_ext (n : nat) (f f' g g' : nat -> f32) :
  (forall k, k < n -> f k = f' k) -> (forall k, k < n -> g k = g' k) ->
  dot n f g = dot n f' g'.
Proof.
  intros Hf Hg. unfold dot. generalize zero as acc.
  assert (H : forall k, In k (seq 0 n) -> k < n) by (intros k Hk; apply in_seq in Hk; lia).
  revert H. generalize (seq 0 n) as l.
  induction l as [| k l IH]; intros H acc; cbn.
  - reflexivity.
  - rewrite Hf, Hg by (apply H; left; reflexivity).
    apply IH. intros k' Hk'. apply H. now right.
Qed.

Lemma fill_block_tinit (N lo hi : nat) (v : f32) (f : nat -> nat -> f32) :
  fill_block lo hi v (tinit N N f)
  = tinit N N (fun i j => if in_range lo hi i && in_range lo hi j then v else f i j).
Proof.
  unfold fill_block. rewrite rows_tinit, cols_tinit.
  apply tinit_ext. intros i j Hi Hj. now rewrite tget_tinit.
Qed.

Lemma fold_fill_blocks (N : nat) (bs : list (Z * Z)) (f g : nat -> nat -> f32) :
  fold_left
    (fun masks b =>
       let lo := slice_index N (fst b) in
       let hi := slice_index N (snd b) in
       (fill_block lo hi one (fst masks), fill_block lo hi one (snd masks)))
    bs (tinit N N f, tinit N N g)
  = (tinit N N (fun i j => if existsb (fun b => in_block N b i && in_block N b j) bs
                           then one else f i j),
     tinit N N (fun i j => if existsb (fun b => in_block N b i && in_block N b j) bs
                           then one else g i j)).
Proof.
  revert f g. induction bs as [| b bs IH]; intros f g; cbn [fold_left existsb].
  - reflexivity.
  - cbn [fst snd]. rewrite !fill_block_tinit, IH.
    f_equal; apply tinit_ext; intros i j _ _; unfold in_block;
      destruct (in_range _ _ i && in_range _ _ j); cbn;
      destruct (existsb _ bs); reflexivity.
Qed.

Lemma batch_masks_some (N : nat) (p : list Z) :
  GraphormerAttentionHead.batch_masks N (Some p)
  = (tinit N N (fun i j => if same_block N p i j then one else neg_1e6),
     tinit N N (fun i j => if same_block N p i j then one else zero)).
Proof.
  unfold GraphormerAttentionHead.batch_masks, zeros, full. apply fold_fill_blocks.
Qed.

Lemma batch_masks_none (N : nat) :
  GraphormerAttentionHead.batch_masks N None
  = (tinit N N (fun _ _ => one), tinit N N (fun _ _ => one)).
Proof.
  unfold GraphormerAttentionHead.batch_masks, ones, zeros, full, tmap.
  f_equal. rewrite rows_tinit, cols_tinit.
  apply tinit_ext. intros i j Hi Hj. now rewrite tget_tinit.
Qed.

Lemma slice_index_le (n : nat) (z : Z) : slice_index n z <= n.
Proof. unfold slice_index. destruct (z <? 0)%Z eqn:E; [apply Z.ltb_lt in E |]; lia. Qed.

Lemma slice_index_0 (n : nat) : slice_index n 0 = 0.
Proof. reflexivity. Qed.

Lemma slice_index_full (n : nat) : slice_index n (Z.of_nat n) = n.
Proof.
  unfold slice_index. destruct (Z.of_nat n <? 0)%Z eqn:E; [apply Z.ltb_lt in E |]; lia.
Qed.

Lemma same_block_single (N i j : nat) :
  i < N -> j < N -> same_block N [0%Z; Z.of_nat N] i j = true.
Proof.
  intros Hi Hj. unfold same_block, in_block, in_range. cbn [blocks existsb fst snd].
  rewrite slice_index_0, slice_index_full.
  replace (i <? N) with true by (symmetry; apply Nat.ltb_lt; exact Hi).
  replace (j <? N) with true by (symmetry; apply Nat.ltb_lt; exact Hj).
  reflexivity.
Qed.

Lemma batch_masks_single_block (N : nat) :
  GraphormerAttentionHead.batch_masks N (Some [0%Z; Z.of_nat N])
  = GraphormerAttentionHead.batch_masks N None.
Proof.
  rewrite batch_masks_some, batch_masks_none.
  f_equal; apply tinit_ext; intros i j Hi Hj; now rewrite same_block_single.
Qed.

(** ** compute_a *)

Lemma tget_transpose (t : tensor2) (i j : nat) :
  i < cols t -> j < rows t -> tget (transpose t) i j = tget t j i.
Proof. intros Hi Hj. unfold transpose. now rewrite tget_tinit. Qed.

Lemma tget_row_slice (lo hi : nat) (t : tensor2) (i j : nat) :
  i < hi - lo -> j < cols t -> tget (row_slice lo hi t) i j = tget t (lo + i) j.
Proof. intros Hi Hj. unfold row_slice. now rewrite tget_tinit. Qed.

Lemma mm_ok (a b : tensor2) :
  cols a = rows b ->
  mm a b = Ok (tinit (rows a) (cols b)
                 (fun i j => dot (cols a) (tget a i) (fun k => tget b k j))).
Proof. intros H. unfold mm. now rewrite H, Nat.eqb_refl. Qed.

Lemma mm_raises (a b : tensor2) : cols a <> rows b -> mm a b = Raise RuntimeError.
Proof. intros H. unfold mm. apply Nat.eqb_neq in H. now rewrite H. Qed.

Lemma scaled_block (key query : tensor2) (lo hi : nat) :
  cols key = cols query ->
  exists qk,
    mm (row_slice lo hi query) (transpose (row_slice lo hi key)) = Ok qk /\
    tmap (fun s => div s (GraphormerAttentionHead.scale query)) qk
    = tinit (hi - lo) (hi - lo) (fun i j => scaled_dot key query (lo + i) (lo + j)).
Proof.
  intros Hc. eexists. split; [apply mm_ok; shapes; congruence |].
  unfold tmap. shapes.
  apply tinit_ext. intros i j Hi Hj.
  rewrite tget_tinit by assumption.
  unfold scaled_dot, GraphormerAttentionHead.scale. rewrite <- Hc.
  f_equal. apply dot_ext; intros k Hk.
  - apply tget_row_slice; [assumption | congruence].
  - rewrite tget_transpose by (shapes; assumption).
    now apply tget_row_slice.
Qed.

Lemma compute_a_fold (key query : tensor2) (bs : list (Z * Z)) (f : nat -> nat -> f32) :
  cols key = cols query ->
  fold_left
    (fun acc b =>
       let? a := acc in
       let lo := slice_index (rows query) (fst b) in
       let hi := slice_index (rows query) (snd b) in
       let lok := slice_index (rows query) (fst b) in
       let hik := slice_index (rows query) (snd b) in
       let? qk := mm (row_slice lo hi query) (transpose (row_slice lok hik key)) in
       assign_block lo hi (tmap (fun s => div s (GraphormerAttentionHead.scale query)) qk) a)
    bs (Ok (tinit (rows query) (rows query) f))
  = Ok (tinit (rows query) (rows query)
          (fun i j =>
             if existsb (fun b => in_block (rows query) b i && in_block (rows query) b j) bs
             then scaled_dot key query i j else f i j)).
Proof.
  intros Hc. revert f. induction bs as [| b bs IH]; intros f; cbn [fold_left existsb].
  - reflexivity.
  - cbn [rbind]. cbv zeta.
    set (lo := slice_index (rows query) (fst b)).
    set (hi := slice_index (rows query) (snd b)).
    destruct (scaled_block key query lo hi Hc) as [qk [Hmm Hs']].
    rewrite Hmm. cbn [rbind]. rewrite Hs'.
    unfold assign_block. rewrite !rows_tinit, !cols_tinit, !Nat.eqb_refl. cbn [andb].
    match goal with
    | |- fold_left ?body bs (Ok (tinit ?n ?m ?g)) = _ =>
        replace (tinit n m g)
          with (tinit (rows query) (rows query)
                  (fun i j => if in_range lo hi i && in_range lo hi j
                              then scaled_dot key query i j else f i j))
    end.
    + rewrite IH. f_equal. apply tinit_ext. intros i j _ _.
      unfold in_block. fold lo hi.
      destruct (in_range lo hi i && in_range lo hi j); cbn;
        destruct (existsb _ bs); reflexivity.
    + apply tinit_ext. intros i j Hi Hj.
      destruct (in_range lo hi i) eqn:Ei; cbn [andb]; [| now rewrite tget_tinit].
      destruct (in_range lo hi j) eqn:Ej; cbn [andb]; [| now rewrite tget_tinit].
      unfold in_range in Ei, Ej.
      apply andb_true_iff in Ei, Ej. destruct Ei as [Ei1 Ei2], Ej as [Ej1 Ej2].
      apply Nat.leb_le in Ei1, Ej1. apply Nat.ltb_lt in Ei2, Ej2.
      rewrite tget_tinit by lia.
      replace (lo + (i - lo)) with i by lia.
      replace (lo + (j - lo)) with j by lia. reflexivity.
Qed.

Lemma compute_a_none (key query : tensor2) :
  rows key = rows query -> cols key = cols query ->
  GraphormerAttentionHead.compute_a key query None
  = Ok (tinit (rows query) (rows query) (scaled_dot key query)).
Proof.
  intros Hr Hc. unfold GraphormerAttentionHead.compute_a.
  rewrite mm_ok by (shapes; congruence). cbn [rbind].
  f_equal. unfold tmap. shapes. rewrite Hr.
  apply tinit_ext. intros i j Hi Hj.
  rewrite tget_tinit by assumption.
  unfold scaled_dot, GraphormerAttentionHead.scale. rewrite <- Hc.
  f_equal. apply dot_ext; intros k Hk; [reflexivity |].
  apply tget_transpose; congruence.
Qed.

Lemma compute_a_some (key query : tensor2) (p : list Z) :
  rows key = rows query -> cols key = cols query ->
  GraphormerAttentionHead.compute_a key query (Some p)
  = Ok (tinit (rows query) (rows query)
          (fun i j => if same_block (rows query) p i j
                      then scaled_dot key query i j else zero)).
Proof.
  intros Hr Hc. unfold GraphormerAttentionHead.compute_a, zeros, full.
  rewrite Hr. now apply compute_a_fold.
Qed.

Lemma fold_left_raise {A B : Type} (f : result A -> B -> result A) (l : list B) (e : exn) :
  (forall b, f (Raise e) b = Raise e) -> fold_left f l (Raise e) = Raise e.
Proof.
  intros Hf. induction l as [| b l IH]; cbn; [reflexivity |]. now rewrite Hf.
Qed.

Lemma blocks_nonempty (p : list Z) : 2 <= length p -> blocks p <> [].
Proof.
  destruct p as [| a [| b p]]; cbn; intros H; try lia. discriminate.
Qed.

Lemma blocks_short (p : list Z) : length p <= 1 -> blocks p = [].
Proof.
  destruct p as [| a [| b p]]; cbn; intros H; try reflexivity. lia.
Qed.

(** C5. When the keys and the queries have the same number of columns
    [d_k], [compute_a] returns the N x N matrix whose entry (i, j) is the dot
    product of query row [i] and key row [j] divided by [sqrt d_k]: every
    entry without a batch pointer, the entries inside a block of the batch
    pointer otherwise, the other entries being zero.  When they do not have
    the same number of columns, the product of the queries and the
    transposed keys is rejected: [compute_a] raises a RuntimeError without a
    batch pointer and with a batch pointer of at least two entries; with a
    batch pointer of fewer than two entries no block is visited, nothing is
    multiplied, and [compute_a] returns the N x N zero matrix. *)
Theorem compute_a_scaled_dot (key query : tensor2) (ptr : option (list Z)) :
  rows key = rows query ->
  (cols key = cols query ->
   exists a,
     GraphormerAttentionHead.compute_a key query ptr = Ok a /\
     rows a = rows query /\ cols a = rows query /\
     forall i j, i < rows query -> j < rows query ->
       tget a i j =
         match ptr with
         | None => scaled_dot key query i j
         | Some p => if same_block (rows query) p i j
                     then scaled_dot key query i j else zero
         end) /\
  (cols key <> cols query ->
   GraphormerAttentionHead.compute_a key query ptr
   = match ptr with
     | None => Raise RuntimeError
     | Some p => if 2 <=? length p then Raise RuntimeError
                 else Ok (zeros (rows query) (rows query))
     end).
Proof.
  intros Hr. split.
  - intros Hc. destruct ptr as [p |].
    + eexists. split; [now apply compute_a_some |].
      split; [reflexivity |]. split; [reflexivity |].
      intros i j Hi Hj. now rewrite tget_tinit.
    + eexists. split; [now apply compute_a_none |].
      split; [reflexivity |]. split; [reflexivity |].
      intros i j Hi Hj. now rewrite tget_tinit.
  - intros Hc. destruct ptr as [p |]; unfold GraphormerAttentionHead.compute_a.
    + destruct (Nat.leb_spec 2 (length p)) as [Hp | Hp].
      * destruct (blocks p) as [| b bs] eqn:Hb; [now apply blocks_nonempty in Hp |].
        cbn [fold_left rbind]. cbv zeta.
        rewrite mm_raises by (shapes; congruence). cbn [rbind].
        now apply fold_left_raise.
      * rewrite blocks_short by lia. reflexivity.
    + rewrite mm_raises by (shapes; congruence). reflexivity.
Qed.

Lemma compute_a_scaled_dot_witness :
  (exists a,
     GraphormerAttentionHead.compute_a
       (tensor_of_Z 2 1 [[3]; [5]]%Z) (tensor_of_Z 2 1 [[2]; [4]]%Z) (Some [0; 1; 2]%Z) = Ok a /\
     tget a 0 0 = of_Z 6 /\ tget a 0 1 = zero /\ tget a 1 1 = of_Z 20) /\
  GraphormerAttentionHead.compute_a (zeros 3 2) (zeros 3 1) (Some [0; 1; 3]%Z)
    = Raise RuntimeError /\
  GraphormerAttentionHead.compute_a (zeros 3 2) (zeros 3 1) (Some [0%Z])
    = Ok (zeros 3 3).
Proof.
  split; [| split].
  - destruct (proj1 (compute_a_scaled_dot
                       (tensor_of_Z 2 1 [[3]; [5]]%Z) (tensor_of_Z 2 1 [[2]; [4]]%Z)
                       (Some [0; 1; 2]%Z) eq_refl) eq_refl) as [a [Ha [_ [_ H]]]].
    exists a. split; [exact Ha |].
    rewrite (H 0 0), (H 0 1), (H 1 1) by (cbn; lia).
    repeat split; vm_compute; reflexivity.
  - apply (proj2 (compute_a_scaled_dot (zeros 3 2) (zeros 3 1) (Some [0; 1; 3]%Z) eq_refl)).
    cbn. lia.
  - apply (proj2 (compute_a_scaled_dot (zeros 3 2) (zeros 3 1) (Some [0%Z]) eq_refl)).
    cbn. lia.
Defined.

(** With [dim_q = 1] and [dim_k = 2] the product of the queries and the
    transposed keys is rejected: [compute_a] and the head raise. *)
Lemma compute_a_dim_mismatch_raises :
  GraphormerAttentionHead.compute_a (zeros 1 2) (zeros 1 1) None = Raise RuntimeError /\
  GraphormerAttentionHead.compute_a (zeros 1 2) (zeros 1 1) (Some [0; 1]%Z)
    = Raise RuntimeError /\
  fst (GraphormerAttentionHead.forward libm_example head_q1_k2 (zeros 1 1)
         edge_attr_example (zeros 1 1) [] None world0) = Raise RuntimeError.
Proof. repeat split; vm_compute; reflexivity. Qed.

Lemma compute_a_single_block (key query : tensor2) :
  rows key = rows query ->
  GraphormerAttentionHead.compute_a key query (Some [0%Z; Z.of_nat (rows query)])
  = GraphormerAttentionHead.compute_a key query None.
Proof.
  intros Hr. destruct (Nat.eq_dec (cols key) (cols query)) as [Hc | Hc].
  - rewrite compute_a_some, compute_a_none by assumption.
    f_equal. apply tinit_ext. intros i j Hi Hj. now rewrite same_block_single.
  - unfold GraphormerAttentionHead.compute_a. cbn [blocks fold_left rbind fst snd].
    cbv zeta. rewrite !mm_raises by (shapes; congruence). reflexivity.
Qed.

(** ** GraphormerAttentionHead.forward *)

Lemma linear_forward_inv (self : Linear.t) (x y : tensor2) :
  Linear.forward self x = Ok y ->
  cols x = Linear.in_features self /\
  rows y = rows x /\ cols y = Linear.out_features self.
Proof.
  unfold Linear.forward. destruct (Nat.eqb_spec (cols x) (Linear.in_features self));
    intros H; [| discriminate].
  inversion H. auto.
Qed.

Lemma linear_forward_ok (self : Linear.t) (x : tensor2) :
  cols x = Linear.in_features self ->
  exists y, Linear.forward self x = Ok y /\
            rows y = rows x /\ cols y = Linear.out_features self.
Proof.
  intros H. unfold Linear.forward. rewrite H, Nat.eqb_refl.
  eexists. split; [reflexivity |]. split; reflexivity.
Qed.

Lemma batch_masks_shape (N : nat) (ptr : option (list Z)) :
  exists f g,
    GraphormerAttentionHead.batch_masks N ptr = (tinit N N f, tinit N N g) /\
    forall i j,
      f i j = match ptr with
              | None => one
              | Some p => if same_block N p i j then one else neg_1e6
              end /\
      g i j = match ptr with
              | None => one
              | Some p => if same_block N p i j then one else zero
              end.
Proof.
  destruct ptr as [p |].
  - rewrite batch_masks_some. do 2 eexists. split; [reflexivity |]. intros; split; reflexivity.
  - rewrite batch_masks_none. do 2 eexists. split; [reflexivity |]. intros; split; reflexivity.
Qed.

(** What the intermediate tensors of a completed [forward] are: the masked
    scores are the biased scores multiplied entry by entry by the first mask
    (1 inside a block, -1e6 outside), the attention weights are the softmax
    of the masked scores multiplied by the second mask (1 inside, 0 outside). *)
Lemma forward_trace_inv (lm : Libm) (self : GraphormerAttentionHead.t)
    (x edge_attr b : tensor2) (edge_paths : edge_paths_t) (ptr : option (list Z))
    (w w' : World) (tr : GraphormerAttentionHead.trace) :
  GraphormerAttentionHead.forward_trace lm self x edge_attr b edge_paths ptr w = (Ok tr, w') ->
  exists abc : tensor2,
    rows abc = rows x /\ cols abc = rows x /\
    GraphormerAttentionHead.masked_scores tr
    = tinit (rows x) (rows x)
        (fun i j => mul (tget abc i j)
                        match ptr with
                        | None => one
                        | Some p => if same_block (rows x) p i j then one else neg_1e6
                        end) /\
    GraphormerAttentionHead.softmax_scores tr
    = softmax lm (GraphormerAttentionHead.masked_scores tr) /\
    GraphormerAttentionHead.weights tr
    = tinit (rows x) (rows x)
        (fun i j => mul (tget (GraphormerAttentionHead.softmax_scores tr) i j)
                        match ptr with
                        | None => one
                        | Some p => if same_block (rows x) p i j then one else zero
                        end).
Proof.
  unfold GraphormerAttentionHead.forward_trace. cbv zeta.
  destruct (batch_masks_shape (rows x) ptr) as [f [g [-> Hfg]]]. cbn [fst snd].
  intros H.
  apply bind_lift_ok_inv in H. destruct H as [query [_ H]].
  apply bind_lift_ok_inv in H. destruct H as [key [_ H]].
  apply bind_lift_ok_inv in H. destruct H as [value [_ H]].
  apply bind_ok_inv in H. destruct H as [c [w1 [_ H]]].
  apply bind_lift_ok_inv in H. destruct H as [a [_ H]].
  apply bind_lift_ok_inv in H. destruct H as [ab [_ H]].
  apply bind_lift_ok_inv in H. destruct H as [abc [_ H]].
  apply bind_lift_ok_inv in H. destruct H as [a' [Ha' H]].
  apply bind_lift_ok_inv in H. destruct H as [sm [Hsm H]].
  unfold ret in H. inversion H; subst tr w'. clear H.
  cbn [GraphormerAttentionHead.masked_scores GraphormerAttentionHead.softmax_scores
       GraphormerAttentionHead.weights].
  apply tmap2_inv in Ha'. destruct Ha' as [Hr [Hc Ha']]. shapes.
  apply tmap2_inv in Hsm. destruct Hsm as [_ [_ Hsm]]. unfold softmax in Hsm at 1 2. shapes.
  exists abc. split; [exact Hr |]. split; [exact Hc |]. split; [| split].
  - rewrite Ha', Hr, Hc. apply tinit_ext. intros i j Hi Hj.
    rewrite tget_tinit by assumption. now rewrite (proj1 (Hfg i j)).
  - reflexivity.
  - rewrite Hsm. subst a'. shapes. rewrite Hr, Hc. apply tinit_ext. intros i j Hi Hj.
    rewrite (tget_tinit _ _ g) by assumption. now rewrite (proj2 (Hfg i j)).
Qed.

Lemma mul_finite_zero (s : f32) : is_finite s = true -> is_zero (mul s zero) = true.
Proof. destruct s; cbn; intros H; try discriminate; reflexivity. Qed.

Lemma mul_nan_l (y : f32) : mul nan y = nan.
Proof. reflexivity. Qed.

(** C2. In a completed [forward] with a batch pointer, the attention weight
    at an entry (i, j) that no block of the pointer contains is the softmax
    value multiplied by the zero of the mask: it is zero whenever the softmax
    value is a finite number, and it is NaN when the softmax value is NaN. *)
Theorem attention_weights_cross_block (lm : Libm) (self : GraphormerAttentionHead.t)
    (x edge_attr b : tensor2) (edge_paths : edge_paths_t) (p : list Z)
    (w w' : World) (tr : GraphormerAttentionHead.trace) (i j : nat) :
  GraphormerAttentionHead.forward_trace lm self x edge_attr b edge_paths (Some p) w
    = (Ok tr, w') ->
  i < rows x -> j < rows x ->
  same_block (rows x) p i j = false ->
  let s := tget (GraphormerAttentionHead.softmax_scores tr) i j in
  let a := tget (GraphormerAttentionHead.weights tr) i j in
  a = mul s zero /\
  (is_finite s = true -> is_zero a = true) /\
  (is_nan s = true -> is_nan a = true).
Proof.
  intros H Hi Hj Hb s a.
  apply forward_trace_inv in H. destruct H as [abc [_ [_ [_ [_ Hw]]]]].
  assert (Ha : a = mul s zero).
  { unfold a, s. rewrite Hw at 1. rewrite tget_tinit by assumption. now rewrite Hb. }
  split; [exact Ha |]. rewrite Ha. split.
  - apply mul_finite_zero.
  - destruct s; cbn; intros E; try discriminate; reflexivity.
Qed.

Lemma attention_weights_cross_block_witness :
  exists tr w',
    GraphormerAttentionHead.forward_trace libm_example head_example (zeros 5 1)
      edge_attr_example (zeros 5 5) [] (Some [0; 2; 5]%Z) world0 = (Ok tr, w') /\
    is_zero (tget (GraphormerAttentionHead.weights tr) 0 2) = true /\
    is_zero (tget (GraphormerAttentionHead.weights tr) 1 4) = true /\
    is_zero (tget (GraphormerAttentionHead.weights tr) 3 0) = true.
Proof.
  eexists. eexists. split; [vm_compute; reflexivity |].
  split; [| split].
  - eapply (attention_weights_cross_block libm_example head_example (zeros 5 1)
              edge_attr_example (zeros 5 5) [] [0; 2; 5]%Z world0 _ _ 0 2);
      [vm_compute; reflexivity | cbn; lia | cbn; lia | reflexivity | reflexivity].
  - eapply (attention_weights_cross_block libm_example head_example (zeros 5 1)
              edge_attr_example (zeros 5 5) [] [0; 2; 5]%Z world0 _ _ 1 4);
      [vm_compute; reflexivity | cbn; lia | cbn; lia | reflexivity | reflexivity].
  - eapply (attention_weights_cross_block libm_example head_example (zeros 5 1)
              edge_attr_example (zeros 5 5) [] [0; 2; 5]%Z world0 _ _ 3 0);
      [vm_compute; reflexivity | cbn; lia | cbn; lia | reflexivity | reflexivity].
Defined.

(** With the batch pointer [0, 2, 5] over five nodes, no block contains a
    node below 2 together with a node from 2 on. *)
Lemma same_block_0_2_5 (i j : nat) :
  i < 2 -> 2 <= j < 5 ->
  same_block 5 [0; 2; 5]%Z i j = false /\ same_block 5 [0; 2; 5]%Z j i = false.
Proof.
  intros Hi Hj.
  assert (Ei : i = 0 \/ i = 1) by lia.
  assert (Ej : j = 2 \/ j = 3 \/ j = 4) by lia.
  destruct Ei as [-> | ->]; destruct Ej as [-> | [-> | ->]]; split; reflexivity.
Qed.

(** A spatial bias that is NaN stays NaN through the softmax and through the
    multiplication by the zero of the mask: the attention weight between the
    two one-node graphs of the batch pointer [0, 1, 2] is NaN, not zero. *)
Lemma attention_weights_cross_block_nan :
  exists tr w',
    GraphormerAttentionHead.forward_trace libm_example head_example (zeros 2 1)
      edge_attr_example (full 2 2 nan) [] (Some [0; 1; 2]%Z) world0 = (Ok tr, w') /\
    same_block 2 [0; 1; 2]%Z 0 1 = false /\
    tget (GraphormerAttentionHead.weights tr) 0 1 = nan /\
    is_zero (tget (GraphormerAttentionHead.weights tr) 0 1) = false.
Proof.
  eexists. eexists. split; [vm_compute; reflexivity |].
  repeat split.
Qed.

(** C3. With the batch pointer [0, 1, 2] over two nodes and a biased score
    of -1 at every entry, the masked score before the softmax is -1 inside
    the blocks and +1000000 outside: the mask multiplies the out-of-block
    score by -1e6 instead of adding a negative offset to it.  With a biased
    score of zero the out-of-block masked score is zero. *)
Theorem masked_scores_multiplied (lm : Libm) :
  (exists tr w',
     GraphormerAttentionHead.forward_trace lm head_example (zeros 2 1)
       edge_attr_example (full 2 2 (of_Z (-1))) [] (Some [0; 1; 2]%Z) world0 = (Ok tr, w') /\
     tget (GraphormerAttentionHead.masked_scores tr) 0 0 = of_Z (-1) /\
     tget (GraphormerAttentionHead.masked_scores tr) 0 1 = of_Z 1000000 /\
     is_neg (tget (GraphormerAttentionHead.masked_scores tr) 0 1) = false) /\
  (exists tr w',
     GraphormerAttentionHead.forward_trace lm head_example (zeros 2 1)
       edge_attr_example (zeros 2 2) [] (Some [0; 1; 2]%Z) world0 = (Ok tr, w') /\
     is_zero (tget (GraphormerAttentionHead.masked_scores tr) 0 1) = true).
Proof.
  split; (eexists; eexists; split; [lazy -[softmax]; reflexivity |]);
    repeat split; vm_compute; reflexivity.
Qed.

(** In a completed [forward] the masked score of an entry inside a block is
    the biased score times one, and the masked score of an entry outside
    every block is the biased score times -1e6. *)
Lemma masked_scores_factor (lm : Libm) (self : GraphormerAttentionHead.t)
    (x edge_attr b : tensor2) (edge_paths : edge_paths_t) (p : list Z)
    (w w' : World) (tr : GraphormerAttentionHead.trace) :
  GraphormerAttentionHead.forward_trace lm self x edge_attr b edge_paths (Some p) w
    = (Ok tr, w') ->
  exists abc,
    rows abc = rows x /\ cols abc = rows x /\
    forall i j, i < rows x -> j < rows x ->
      tget (GraphormerAttentionHead.masked_scores tr) i j
      = mul (tget abc i j) (if same_block (rows x) p i j then one else neg_1e6).
Proof.
  intros H. apply forward_trace_inv in H. destruct H as [abc [Hr [Hc [Hm _]]]].
  exists abc. split; [exact Hr |]. split; [exact Hc |].
  intros i j Hi Hj. rewrite Hm. now rewrite tget_tinit.
Qed.

(** C7. [forward] without a batch pointer and [forward] with the batch
    pointer [0, N], N the number of rows of [x], return the same result (the
    same tensor or the same error) and leave the same output behind. *)
Theorem forward_none_single_block (lm : Libm) (self : GraphormerAttentionHead.t)
    (x edge_attr b : tensor2) (edge_paths : edge_paths_t) (w : World) :
  GraphormerAttentionHead.forward lm self x edge_attr b edge_paths None w
  = GraphormerAttentionHead.forward lm self x edge_attr b edge_paths
      (Some [0%Z; Z.of_nat (rows x)]) w.
Proof.
  unfold GraphormerAttentionHead.forward, GraphormerAttentionHead.forward_trace.
  cbv zeta. rewrite batch_masks_single_block.
  unfold bind, lift.
  destruct (Linear.forward (GraphormerAttentionHead.q self) x) as [query |] eqn:Hq;
    [| reflexivity].
  destruct (Linear.forward (GraphormerAttentionHead.k self) x) as [key |] eqn:Hk;
    [| reflexivity].
  destruct (Linear.forward (GraphormerAttentionHead.v self) x) as [value |];
    [| reflexivity].
  destruct (EdgeEncoding.forward _ x edge_attr edge_paths w) as [[c | e] w1];
    [| reflexivity].
  apply linear_forward_inv in Hq, Hk.
  destruct Hq as [_ [Hq _]], Hk as [_ [Hk _]].
  replace (GraphormerAttentionHead.compute_a key query (Some [0%Z; Z.of_nat (rows x)]))
    with (GraphormerAttentionHead.compute_a key query None)
    by (rewrite <- Hq; symmetry; apply compute_a_single_block; congruence).
  reflexivity.
Qed.

(** ** SpatialEncoding *)

Lemma add_nan_l (y : f32) : add nan y = nan.
Proof. reflexivity. Qed.

Lemma add_nan_r (x : f32) : add x nan = nan.
Proof. destruct x; reflexivity. Qed.

Lemma mul_nan_r (x : f32) : mul x nan = nan.
Proof. destruct x; reflexivity. Qed.

Lemma sub_nan_l (y : f32) : sub nan y = nan.
Proof. reflexivity. Qed.

Lemma div_nan_l (y : f32) : div nan y = nan.
Proof. reflexivity. Qed.

Lemma is_nan_eq (x : f32) : is_nan x = true -> x = nan.
Proof. destruct x; cbn; intros H; try discriminate; reflexivity. Qed.

Lemma sqrt_zero (x : f32) : is_zero x = true -> is_zero (sqrt x) = true.
Proof. destruct x; cbn; intros H; try discriminate; reflexivity. Qed.

Lemma sqrt_neg (x : f32) : is_neg x = true -> sqrt x = nan.
Proof. destruct x as [| [|] | | [|] m e]; cbn; intros H; try discriminate; reflexivity. Qed.

Lemma fold_dot_nan (f g : nat -> f32) (l : list nat) :
  fold_left (fun acc k => add acc (mul (f k) (g k))) l nan = nan.
Proof.
  induction l as [| k l IH]; cbn; [reflexivity |]. exact IH.
Qed.

Lemma fold_dot_nan_at (f g : nat -> f32) (l : list nat) (k0 : nat) (acc : f32) :
  In k0 l -> f k0 = nan ->
  fold_left (fun acc k => add acc (mul (f k) (g k))) l acc = nan.
Proof.
  intros Hin Hf. revert acc. induction l as [| k l IH]; intros acc; cbn.
  - contradiction.
  - destruct (Nat.eq_dec k k0) as [-> | Hne].
    + rewrite Hf. change (mul nan (g k0)) with nan. rewrite add_nan_r.
      apply fold_dot_nan.
    + apply IH. destruct Hin as [E | Hin]; [contradiction | assumption].
Qed.

Lemma dot_nan_at (n : nat) (f g : nat -> f32) (k0 : nat) :
  k0 < n -> f k0 = nan -> dot n f g = nan.
Proof.
  intros Hk Hf. unfold dot. apply fold_dot_nan_at with (k0 := k0); [| exact Hf].
  apply in_seq. lia.
Qed.

Lemma fold_add_nan (l : vector) : fold_left add l nan = nan.
Proof. induction l as [| a l IH]; cbn; [reflexivity | exact IH]. Qed.

Lemma length_trow (t : tensor2) (i : nat) : length (trow t i) = cols t.
Proof. unfold trow. now rewrite length_map, length_seq. Qed.

(** The mean over the heads of values that are all NaN is NaN, also when
    there is no head (0 / 0). *)
Lemma mean_heads_nan (H : nat) :
  div (vsum (vinit H (fun _ => nan))) (of_nat H) = nan.
Proof.
  destruct H as [| H].
  - reflexivity.
  - unfold vsum, vinit. cbn [seq map fold_left]. rewrite fold_add_nan. reflexivity.
Qed.

Lemma gbf_nan (lm : Libm) (self : SpatialEncoding.t) (h : nat) :
  SpatialEncoding.gbf lm self nan h = nan.
Proof. reflexivity. Qed.

(** The distances of a coordinate matrix whose rows are all the row [r]. *)
Lemma distances_identical_rows (coords : tensor2) (r : vector) :
  (forall i k, i < rows coords -> k < cols coords -> tget coords i k = vget r k) ->
  SpatialEncoding.distances coords
  = Ok (tinit (rows coords) (rows coords) (fun _ _ => sqrt (radicand (cols coords) r))).
Proof.
  intros Hrow. unfold SpatialEncoding.distances.
  rewrite mm_ok by (shapes; reflexivity). cbn [rbind]. shapes.
  f_equal. apply tinit_ext. intros i j Hi Hj.
  rewrite tget_tinit by assumption.
  unfold SpatialEncoding.norms. rewrite !vget_vinit by assumption.
  unfold radicand.
  assert (Hn : forall i', i' < rows coords ->
            dot (cols coords) (tget coords i') (tget coords i')
            = dot (cols coords) (vget r) (vget r)).
  { intros i' Hi'. apply dot_ext; intros k Hk; now apply Hrow. }
  rewrite (Hn i Hi), (Hn j Hj). do 3 f_equal.
  apply dot_ext; intros k Hk.
  - unfold tmap. rewrite tget_tinit by assumption. now rewrite Hrow.
  - rewrite tget_transpose by assumption. now apply Hrow.
Qed.

(** A NaN distance makes the bias entry NaN. *)
Lemma spatial_forward_nan_distance (lm : Libm) (self : SpatialEncoding.t)
    (x coords dist out : tensor2) (i j : nat) :
  SpatialEncoding.distances coords = Ok dist ->
  SpatialEncoding.forward lm self x coords = Ok out ->
  i < rows x -> j < rows x ->
  tget dist i j = nan -> tget out i j = nan.
Proof.
  intros Hd Hf Hi Hj Hnan. unfold SpatialEncoding.forward in Hf.
  rewrite Hd in Hf. cbn [rbind] in Hf.
  destruct (negb (rows dist =? rows x)); [discriminate |].
  destruct (negb (2 * cols x + 1 =? 2 * SpatialEncoding.embedding_size self + 1));
    [discriminate |].
  assert (Hout : out = tinit (rows x) (rows x)
            (fun i j =>
               div (vsum (vinit (SpatialEncoding.num_heads self)
                            (SpatialEncoding.gbf lm self
                               (tget (tinit (rows x) (rows x)
                                        (fun i j =>
                                           SpatialEncoding.vdot
                                             (trow x i ++ [tget dist i j] ++ trow x j)
                                             (SpatialEncoding.weights_dist self))) i j))))
                   (of_nat (SpatialEncoding.num_heads self))))
    by congruence.
  rewrite Hout. clear Hf Hout.
  rewrite tget_tinit by assumption. rewrite tget_tinit by assumption.
  assert (Hv : SpatialEncoding.vdot (trow x i ++ [tget dist i j] ++ trow x j)
                 (SpatialEncoding.weights_dist self) = nan).
  { unfold SpatialEncoding.vdot. apply dot_nan_at with (k0 := cols x).
    - rewrite !length_app, !length_trow. cbn. lia.
    - unfold vget. rewrite app_nth2 by (rewrite length_trow; lia).
      rewrite length_trow, Nat.sub_diag. exact Hnan. }
  rewrite Hv.
  rewrite (vinit_ext _ _ (fun _ => nan)) by (intros; apply gbf_nan).
  apply mean_heads_nan.
Qed.

(** For a coordinate matrix whose rows are all the row [r], every entry
    of the distance matrix is the square root of the same number,
    [n - (2 r) . r + n] with [n] the squared norm of [r] as computed in
    binary32.  The entry is zero when that number is zero and NaN when
    rounding makes it negative: no clamp is applied before the square root.
    With [x] of N rows and [embedding_size] columns [forward] returns an
    N x N matrix, and where the distance is NaN so is the returned bias: no
    NaN is replaced. *)
Lemma spatial_identical_coords (lm : Libm) (self : SpatialEncoding.t)
    (x coords : tensor2) (r : vector) :
  (forall i k, i < rows coords -> k < cols coords -> tget coords i k = vget r k) ->
  rows coords = rows x ->
  cols x = SpatialEncoding.embedding_size self ->
  exists dist out,
    SpatialEncoding.distances coords = Ok dist /\
    SpatialEncoding.forward lm self x coords = Ok out /\
    rows dist = rows x /\ cols dist = rows x /\
    rows out = rows x /\ cols out = rows x /\
    forall i j, i < rows x -> j < rows x ->
      tget dist i j = sqrt (radicand (cols coords) r) /\
      (is_zero (radicand (cols coords) r) = true -> is_zero (tget dist i j) = true) /\
      (is_neg (radicand (cols coords) r) = true ->
       tget dist i j = nan /\ tget out i j = nan).
Proof.
  intros Hrow HN HD.
  pose proof (distances_identical_rows coords r Hrow) as Hd.
  assert (Hf : exists out, SpatialEncoding.forward lm self x coords = Ok out /\
                           rows out = rows x /\ cols out = rows x).
  { unfold SpatialEncoding.forward. rewrite Hd. cbn [rbind]. shapes.
    rewrite HN, HD, !Nat.eqb_refl. cbn [negb].
    eexists. split; [reflexivity |]. split; reflexivity. }
  destruct Hf as [out [Hf [Hor Hoc]]].
  eexists. exists out. split; [exact Hd |]. split; [exact Hf |]. shapes.
  split; [exact HN |]. split; [exact HN |]. split; [exact Hor |]. split; [exact Hoc |].
  intros i j Hi Hj.
  assert (Hg : tget (tinit (rows coords) (rows coords)
                       (fun _ _ => sqrt (radicand (cols coords) r))) i j
               = sqrt (radicand (cols coords) r))
    by (rewrite tget_tinit by lia; reflexivity).
  split; [exact Hg |]. split.
  - intros Hz. rewrite Hg. now apply sqrt_zero.
  - intros Hneg.
    assert (Hnan : tget (tinit (rows coords) (rows coords)
                           (fun _ _ => sqrt (radicand (cols coords) r))) i j = nan)
      by (rewrite Hg; now apply sqrt_neg).
    split; [exact Hnan |].
    exact (spatial_forward_nan_distance lm self x coords _ out i j Hd Hf Hi Hj Hnan).
Qed.

(** All-zero coordinates: the distances are zero. *)
Lemma spatial_zero_coords :
  exists dist out,
    SpatialEncoding.distances (zeros 2 3) = Ok dist /\
    SpatialEncoding.forward libm_example spatial_example (zeros 2 1) (zeros 2 3) = Ok out /\
    is_zero (tget dist 0 1) = true /\ is_zero (tget dist 1 1) = true.
Proof.
  destruct (spatial_identical_coords libm_example spatial_example (zeros 2 1) (zeros 2 3)
              [zero; zero; zero]) as [dist [out [Hd [Hf [_ [_ [_ [_ H]]]]]]]].
  - intros i k Hi Hk. cbn in Hi, Hk.
    assert (Ei : i = 0 \/ i = 1) by lia. assert (Ek : k = 0 \/ k = 1 \/ k = 2) by lia.
    destruct Ei as [-> | ->]; destruct Ek as [-> | [-> | ->]]; reflexivity.
  - reflexivity.
  - reflexivity.
  - exists dist, out. split; [exact Hd |]. split; [exact Hf |].
    split.
    + apply (H 0 1); [cbn; lia | cbn; lia | reflexivity].
    + apply (H 1 1); [cbn; lia | cbn; lia | reflexivity].
Defined.

(** C8. With two nodes at the same coordinates (1, 1, 0) the squared norm
    is computed as 1.99999988 while the dot product is 2, the number under
    the square root is negative, and every entry of the distance matrix and
    of the returned bias is NaN instead of zero: nothing is clamped before
    the square root and no NaN is replaced afterwards. *)
Theorem spatial_identical_coords_nan :
  is_neg (radicand 3 [one; one; zero]) = true /\
  SpatialEncoding.distances (tensor_of_Z 2 3 [[1; 1; 0]; [1; 1; 0]]%Z)
    = Ok (full 2 2 nan) /\
  SpatialEncoding.forward libm_example spatial_example (zeros 2 1)
    (tensor_of_Z 2 3 [[1; 1; 0]; [1; 1; 0]]%Z) = Ok (full 2 2 nan).
Proof. repeat split; vm_compute; reflexivity. Qed.

(** ** GraphormerMultiHeadAttention and GraphormerEncoderLayer *)

Lemma head_forward_rows (lm : Libm) (self : GraphormerAttentionHead.t)
    (x edge_attr b : tensor2) (edge_paths : edge_paths_t) (ptr : option (list Z))
    (w w' : World) (out : tensor2) :
  GraphormerAttentionHead.forward lm self x edge_attr b edge_paths ptr w = (Ok out, w') ->
  rows out = rows x.
Proof.
  unfold GraphormerAttentionHead.forward. intros H.
  apply bind_ok_inv in H. destruct H as [tr [w1 [Htr H]]].
  apply lift_ok_inv in H. destruct H as [H _].
  apply forward_trace_inv in Htr. destruct Htr as [abc [_ [_ [_ [_ Hw]]]]].
  unfold mm in H. destruct (_ =? _); [| discriminate].
  inversion H. shapes. now rewrite Hw.
Qed.

Lemma mmap_heads_rows (lm : Libm) (x edge_attr b : tensor2) (edge_paths : edge_paths_t)
    (ptr : option (list Z)) (hs : list GraphormerAttentionHead.t)
    (w w' : World) (outs : list tensor2) :
  mmap (fun h => GraphormerAttentionHead.forward lm h x edge_attr b edge_paths ptr) hs w
    = (Ok outs, w') ->
  Forall (fun t => rows t = rows x) outs.
Proof.
  revert w outs. induction hs as [| h hs IH]; cbn [mmap]; intros w outs H.
  - unfold ret in H. inversion H. constructor.
  - apply bind_ok_inv in H. destruct H as [o [w1 [Ho H]]].
    apply bind_ok_inv in H. destruct H as [os [w2 [Hos H]]].
    unfold ret in H. inversion H. subst outs w'. constructor.
    + exact (head_forward_rows _ _ _ _ _ _ _ _ _ _ Ho).
    + exact (IH _ _ Hos).
Qed.

Lemma mha_forward_shape (lm : Libm) (self : GraphormerMultiHeadAttention.t)
    (x edge_attr b : tensor2) (edge_paths : edge_paths_t) (ptr : option (list Z))
    (w w' : World) (out : tensor2) :
  GraphormerMultiHeadAttention.forward lm self x edge_attr b edge_paths ptr w = (Ok out, w') ->
  rows out = rows x /\
  cols out = Linear.out_features (GraphormerMultiHeadAttention.linear self).
Proof.
  unfold GraphormerMultiHeadAttention.forward. intros H.
  apply bind_ok_inv in H. destruct H as [outs [w1 [Houts H]]].
  apply bind_lift_ok_inv in H. destruct H as [cat [Hcat H]].
  apply lift_ok_inv in H. destruct H as [H _].
  apply linear_forward_inv in H. destruct H as [_ [Hr Hc]].
  split; [| exact Hc]. rewrite Hr.
  apply mmap_heads_rows in Houts.
  unfold cat_cols in Hcat. destruct outs as [| t0 outs]; [discriminate |].
  destruct (forallb _ _); [| discriminate]. inversion Hcat. cbn [rows].
  now inversion Houts.
Qed.

Lemma layernorm_forward_ok (self : LayerNorm.t) (x : tensor2) :
  cols x = LayerNorm.normalized_shape self ->
  exists y, LayerNorm.forward self x = Ok y /\ rows y = rows x /\ cols y = cols x.
Proof.
  intros H. unfold LayerNorm.forward. rewrite H, Nat.eqb_refl.
  eexists. split; [reflexivity |]. split; reflexivity.
Qed.

Lemma tadd_ok (a b : tensor2) :
  rows a = rows b -> cols a = cols b ->
  exists c, tadd a b = Ok c /\ rows c = rows a /\ cols c = cols a.
Proof.
  intros Hr Hc. unfold tadd. rewrite tmap2_ok by assumption.
  eexists. split; [reflexivity |]. split; reflexivity.
Qed.

Lemma encoder_forward_unfold (lm : Libm) (self : GraphormerEncoderLayer.t)
    (x edge_attr b : tensor2) (edge_paths : edge_paths_t) (ptr : option (list Z))
    (w : World) :
  GraphormerEncoderLayer.forward lm self x edge_attr b edge_paths ptr w
  = match LayerNorm.forward (GraphormerEncoderLayer.ln_1 self) x with
    | Raise e => (Raise e, w)
    | Ok n1 =>
        match GraphormerMultiHeadAttention.forward lm (GraphormerEncoderLayer.attention self)
                n1 edge_attr b edge_paths ptr w with
        | (Raise e, w') => (Raise e, w')
        | (Ok att, w') =>
            (let? x_prime := tadd att x in
             let? n2 := LayerNorm.forward (GraphormerEncoderLayer.ln_2 self) x_prime in
             let? f := GraphormerEncoderLayer.ff lm self n2 in
             tadd f x_prime, w')
        end
    end.
Proof.
  unfold GraphormerEncoderLayer.forward, bind, lift, ret.
  destruct (LayerNorm.forward (GraphormerEncoderLayer.ln_1 self) x) as [n1 |];
    [| reflexivity].
  destruct (GraphormerMultiHeadAttention.forward lm _ n1 edge_attr b edge_paths ptr w)
    as [[att | e] w']; [| reflexivity].
  destruct (tadd att x) as [x_prime |]; [| reflexivity]. cbn [rbind].
  destruct (LayerNorm.forward _ x_prime) as [n2 |]; [| reflexivity]. cbn [rbind].
  destruct (GraphormerEncoderLayer.ff lm self n2) as [f |]; [| reflexivity]. cbn [rbind].
  destruct (tadd f x_prime); reflexivity.
Qed.

(** C9. For [x] with [node_dim] columns and a layer shaped as [__init__]
    shapes it, whenever the attention applied to [ln_1(x)] returns [mha],
    [GraphormerEncoderLayer.forward] returns one tensor [x_out], of the
    shape of [x], with [x' = mha + x] and
    [x_out = ff_2(GELU(ff_0(ln_2(x')))) + x']; when the attention raises,
    so does [forward]. *)
Theorem encoder_layer_prenorm_residual (lm : Libm) (self : GraphormerEncoderLayer.t)
    (x edge_attr b : tensor2) (edge_paths : edge_paths_t) (ptr : option (list Z))
    (w : World) :
  configured self ->
  cols x = GraphormerEncoderLayer.node_dim self ->
  exists n1,
    LayerNorm.forward (GraphormerEncoderLayer.ln_1 self) x = Ok n1 /\
    rows n1 = rows x /\ cols n1 = cols x /\
    match GraphormerMultiHeadAttention.forward lm (GraphormerEncoderLayer.attention self)
            n1 edge_attr b edge_paths ptr w with
    | (Ok mha, w') =>
        exists x_out,
          GraphormerEncoderLayer.forward lm self x edge_attr b edge_paths ptr w
            = (Ok x_out, w') /\
          prenorm_residual_block lm self x mha x_out /\
          rows x_out = rows x /\ cols x_out = cols x
    | (Raise e, w') =>
        GraphormerEncoderLayer.forward lm self x edge_attr b edge_paths ptr w
          = (Raise e, w')
    end.
Proof.
  intros [H1 [H2 [H3 [H4 [H5 [H6 H7]]]]]] Hx. cbv zeta in *.
  destruct (layernorm_forward_ok (GraphormerEncoderLayer.ln_1 self) x) as [n1 [Hn1 [Hr1 Hc1]]];
    [congruence |].
  exists n1. split; [exact Hn1 |]. split; [exact Hr1 |]. split; [exact Hc1 |].
  rewrite encoder_forward_unfold, Hn1.
  destruct (GraphormerMultiHeadAttention.forward lm _ n1 edge_attr b edge_paths ptr w)
    as [[mha | e] w'] eqn:Hmha; [| reflexivity].
  apply mha_forward_shape in Hmha. destruct Hmha as [Hmr Hmc].
  destruct (tadd_ok mha x) as [x' [Hx' [Hxr Hxc]]]; [congruence | congruence |].
  destruct (layernorm_forward_ok (GraphormerEncoderLayer.ln_2 self) x') as [n2 [Hn2 [Hr2 Hc2]]];
    [congruence |].
  destruct (linear_forward_ok (GraphormerEncoderLayer.ff_0 self) n2) as [h [Hh [Hhr Hhc]]];
    [congruence |].
  destruct (linear_forward_ok (GraphormerEncoderLayer.ff_2 self) (tmap (gelu lm) h))
    as [f [Hf [Hfr Hfc]]]; [shapes; congruence |].
  shapes.
  destruct (tadd_ok f x') as [x_out [Hout [Hor Hoc]]]; [congruence | congruence |].
  exists x_out. split; [| split; [| split; congruence]].
  - unfold GraphormerEncoderLayer.ff.
    rewrite Hx'. cbn [rbind]. rewrite Hn2. cbn [rbind]. rewrite Hh. cbn [rbind].
    rewrite Hf. cbn [rbind]. rewrite Hout. reflexivity.
  - exists x', n2, h. repeat split; try assumption. exists f. split; assumption.
Qed.

Lemma encoder_layer_prenorm_residual_witness :
  exists x_out w',
    GraphormerEncoderLayer.forward libm_example layer_example
      (tensor_of_Z 2 1 [[3]; [5]]%Z) edge_attr_example (zeros 2 2) []
      (Some [0; 1; 2]%Z) world0 = (Ok x_out, w') /\
    rows x_out = 2 /\ cols x_out = 1.
Proof.
  destruct (encoder_layer_prenorm_residual libm_example layer_example
              (tensor_of_Z 2 1 [[3]; [5]]%Z) edge_attr_example (zeros 2 2) []
              (Some [0; 1; 2]%Z) world0) as [n1 [Hn1 [_ [_ Hm]]]].
  - repeat split.
  - reflexivity.
  - vm_compute in Hn1. inversion Hn1; subst n1. clear Hn1.
    match type of Hm with
    | match ?r with _ => _ end => set (res := r) in Hm; vm_compute in res; subst res
    end.
    cbv iota beta in Hm. destruct Hm as [x_out [Hf [_ [Hr Hc]]]].
    eexists. eexists. split; [exact Hf |]. split; [exact Hr | exact Hc].
Defined.

(** ** The value of [forward] does not depend on the outside world *)

Lemma oblivious_ret {A : Type} (a : A) : oblivious (ret a).
Proof. intros w1 w2. reflexivity. Qed.

Lemma oblivious_lift {A : Type} (r : result A) : oblivious (lift r).
Proof. intros w1 w2. reflexivity. Qed.

Lemma oblivious_print_now : oblivious print_now.
Proof. intros w1 w2. reflexivity. Qed.

Lemma oblivious_bind {A B : Type} (m : M A) (k : A -> M B) :
  oblivious m -> (forall a, oblivious (k a)) -> oblivious (bind m k).
Proof.
  intros Hm Hk w1 w2. unfold bind. specialize (Hm w1 w2).
  destruct (m w1) as [[a1 | e1] w1'], (m w2) as [[a2 | e2] w2']; cbn in Hm;
    try discriminate.
  - inversion Hm. subst a2. apply Hk.
  - cbn. inversion Hm. reflexivity.
Qed.

Lemma oblivious_mmap {A B : Type} (f : A -> M B) (l : list A) :
  (forall a, oblivious (f a)) -> oblivious (mmap f l).
Proof.
  intros Hf. induction l as [| a l IH]; cbn [mmap].
  - apply oblivious_ret.
  - apply oblivious_bind; [apply Hf |]. intros b.
    apply oblivious_bind; [exact IH |]. intros bs. apply oblivious_ret.
Qed.

Ltac oblivious_steps :=
  repeat first
    [ apply oblivious_ret | apply oblivious_lift | apply oblivious_print_now
    | apply oblivious_bind; [| intro] ].

Lemma oblivious_edge_encoding (self : EdgeEncoding.t) (x edge_attr : tensor2)
    (edge_paths : edge_paths_t) :
  oblivious (EdgeEncoding.forward self x edge_attr edge_paths).
Proof. unfold EdgeEncoding.forward. oblivious_steps. Qed.

Lemma oblivious_head (lm : Libm) (self : GraphormerAttentionHead.t)
    (x edge_attr b : tensor2) (edge_paths : edge_paths_t) (ptr : option (list Z)) :
  oblivious (GraphormerAttentionHead.forward lm self x edge_attr b edge_paths ptr).
Proof.
  unfold GraphormerAttentionHead.forward.
  apply oblivious_bind; [| intro; apply oblivious_lift].
  unfold GraphormerAttentionHead.forward_trace. cbv zeta.
  do 3 (apply oblivious_bind; [apply oblivious_lift | intro]).
  apply oblivious_bind; [apply oblivious_edge_encoding | intro].
  oblivious_steps.
Qed.

Lemma oblivious_mha (lm : Libm) (self : GraphormerMultiHeadAttention.t)
    (x edge_attr b : tensor2) (edge_paths : edge_paths_t) (ptr : option (list Z)) :
  oblivious (GraphormerMultiHeadAttention.forward lm self x edge_attr b edge_paths ptr).
Proof.
  unfold GraphormerMultiHeadAttention.forward.
  apply oblivious_bind; [| intro; oblivious_steps].
  apply oblivious_mmap. intros h. apply oblivious_head.
Qed.

Lemma oblivious_encoder_layer (lm : Libm) (self : GraphormerEncoderLayer.t)
    (x edge_attr b : tensor2) (edge_paths : edge_paths_t) (ptr : option (list Z)) :
  oblivious (GraphormerEncoderLayer.forward lm self x edge_attr b edge_paths ptr).
Proof.
  unfold GraphormerEncoderLayer.forward.
  apply oblivious_bind; [apply oblivious_lift | intro n1].
  apply oblivious_bind; [apply oblivious_mha | intro att].
  oblivious_steps.
Qed.

(** C10. With the parameters and the inputs fixed,
    [GraphormerEncoderLayer.forward] returns the same result (the same
    tensor or the same error) from every state of the clock and of the
    standard output; in particular a second call, made in the state the
    first call left behind, returns what the first call returned. *)
Theorem encoder_layer_deterministic (lm : Libm) (self : GraphormerEncoderLayer.t)
    (x edge_attr b : tensor2) (edge_paths : edge_paths_t) (ptr : option (list Z)) :
  let call := GraphormerEncoderLayer.forward lm self x edge_attr b edge_paths ptr in
  (forall w1 w2 : World, fst (call w1) = fst (call w2)) /\
  (forall w : World, fst (call (snd (call w))) = fst (call w)).
Proof.
  intros call. split.
  - exact (oblivious_encoder_layer lm self x edge_attr b edge_paths ptr).
  - intros w. exact (oblivious_encoder_layer lm self x edge_attr b edge_paths ptr _ _).
Qed.

(** * Further properties of the layers *)

(** ** decrease_to_max_value and CentralityEncoding *)

(** X1. [decrease_to_max_value] keeps the length, replaces every entry by
    its minimum with [max_value], so that no entry of the result exceeds
    [max_value] and a list within the bound is returned unchanged, and
    applying it twice is applying it once. *)
Theorem decrease_to_max_value_min (x : list Z) (max_value : Z) :
  decrease_to_max_value x max_value = map (fun d => Z.min d max_value) x /\
  length (decrease_to_max_value x max_value) = length x /\
  Forall (fun d => (d <= max_value)%Z) (decrease_to_max_value x max_value) /\
  (Forall (fun d => (d <= max_value)%Z) x -> decrease_to_max_value x max_value = x) /\
  decrease_to_max_value (decrease_to_max_value x max_value) max_value
  = decrease_to_max_value x max_value.
Proof.
  assert (E : forall l, decrease_to_max_value l max_value
                        = map (fun d => Z.min d max_value) l).
  { intros l. unfold decrease_to_max_value. apply map_ext. intros d.
    destruct (Z.gtb_spec d max_value); lia. }
  split; [apply E |]. split; [| split; [| split]].
  - unfold decrease_to_max_value. apply length_map.
  - rewrite E. apply Forall_forall. intros d Hd. apply in_map_iff in Hd.
    destruct Hd as [d' [<- _]]. lia.
  - intros H. rewrite E. induction H as [| d l Hd _ IH]; cbn; [reflexivity |].
    rewrite IH. f_equal. lia.
  - rewrite !E, map_map. apply map_ext. intros d. lia.
Qed.

Lemma degree_permutation (index index' : list nat) (n : nat) :
  Permutation index index' -> degree index n = degree index' n.
Proof.
  intros HP. unfold degree.
  assert (Hf : forallb (fun v => v <? n) index = forallb (fun v => v <? n) index').
  { induction HP as [| a l l' _ IH | a a' l | l l' l'' _ IH1 _ IH2].
    - reflexivity.
    - cbn [forallb]. f_equal. exact IH.
    - cbn [forallb]. destruct (a <? n), (a' <? n); reflexivity.
    - congruence. }
  rewrite Hf. destruct (forallb _ index'); [| reflexivity].
  f_equal. apply map_ext. intros v. f_equal.
  now apply Permutation_count_occ.
Qed.

(** X2. The order of the edges does not matter: permuting the sources and
    permuting the destinations of the edge index leaves the result of
    [CentralityEncoding.forward] unchanged, errors included. *)
Theorem centrality_forward_edge_order (self : CentralityEncoding.t) (x : tensor2)
    (src dst src' dst' : list nat) :
  Permutation src src' -> Permutation dst dst' ->
  CentralityEncoding.forward self x (src, dst)
  = CentralityEncoding.forward self x (src', dst').
Proof.
  intros Hs Hd. unfold CentralityEncoding.forward. cbn [fst snd].
  now rewrite (degree_permutation dst dst' _ Hd), (degree_permutation src src' _ Hs).
Qed.

Lemma centrality_forward_edge_order_witness :
  CentralityEncoding.forward centrality_example (zeros 3 4) ([0; 1], [1; 2])
  = CentralityEncoding.forward centrality_example (zeros 3 4) ([1; 0], [2; 1]).
Proof.
  apply centrality_forward_edge_order; apply perm_swap.
Defined.

Lemma degree_out_of_range (index : list nat) (n : nat) :
  Exists (fun v => n <= v) index -> degree index n = Raise RuntimeError.
Proof.
  intros H. unfold degree.
  replace (forallb (fun v => v <? n) index) with false; [reflexivity |].
  symmetry. apply not_true_is_false. intros Hf.
  rewrite forallb_forall in Hf. apply Exists_exists in H.
  destruct H as [v [Hin Hv]]. specialize (Hf v Hin). apply Nat.ltb_lt in Hf. lia.
Qed.

Lemma degree_result (index : list nat) (n : nat) :
  degree index n = Raise RuntimeError \/
  degree index n = Ok (map (fun v => Z.of_nat (count_occ Nat.eq_dec index v)) (seq 0 n)).
Proof. unfold degree. destruct (forallb _ _); auto. Qed.

(** X3. An edge whose source or destination is not one of the N nodes
    makes [CentralityEncoding.forward] raise a RuntimeError. *)
Theorem centrality_forward_bad_endpoint (self : CentralityEncoding.t) (x : tensor2)
    (src dst : list nat) :
  Exists (fun v => rows x <= v) src \/ Exists (fun v => rows x <= v) dst ->
  CentralityEncoding.forward self x (src, dst) = Raise RuntimeError.
Proof.
  intros H. unfold CentralityEncoding.forward. cbn [fst snd].
  destruct (degree_result dst (rows x)) as [-> | Hd]; [reflexivity |].
  rewrite Hd. cbn [rbind].
  destruct H as [H | H].
  - now rewrite (degree_out_of_range src (rows x) H).
  - rewrite (degree_out_of_range dst (rows x) H) in Hd. discriminate.
Qed.

Lemma centrality_forward_bad_endpoint_witness :
  CentralityEncoding.forward centrality_example (zeros 3 4) ([0; 1], [1; 3])
  = Raise RuntimeError.
Proof.
  apply centrality_forward_bad_endpoint. right.
  apply Exists_cons_tl, Exists_cons_hd. cbn. lia.
Defined.

Lemma index_rows_empty_table (z : tensor2) (l : list Z) :
  rows z = 0 -> l <> [] -> index_rows z l = Raise IndexError.
Proof.
  intros Hz Hl. unfold index_rows. rewrite Hz.
  destruct l as [| a l]; [contradiction |]. cbn [rmap].
  assert (E : py_index 0 a = Raise IndexError).
  { unfold py_index. cbn [Z.of_nat Z.opp].
    destruct (Z.leb_spec 0 a), (Z.ltb_spec a 0); cbn; try reflexivity; lia. }
  rewrite E. reflexivity.
Qed.

(** X4. A degree table without rows cannot be indexed: with
    [max_in_degree = 0] or [max_out_degree = 0], at least one node and an
    edge index over the nodes, [CentralityEncoding.forward] raises an
    IndexError. *)
Theorem centrality_forward_empty_table (self : CentralityEncoding.t) (x : tensor2)
    (src dst : list nat) :
  rows (CentralityEncoding.z_in self) = CentralityEncoding.max_in_degree self ->
  rows (CentralityEncoding.z_out self) = CentralityEncoding.max_out_degree self ->
  CentralityEncoding.max_in_degree self = 0 \/ CentralityEncoding.max_out_degree self = 0 ->
  1 <= rows x ->
  Forall (fun v => v < rows x) src ->
  Forall (fun v => v < rows x) dst ->
  CentralityEncoding.forward self x (src, dst) = Raise IndexError.
Proof.
  intros Hin Hout Hz HN Hsrc Hdst.
  unfold CentralityEncoding.forward. cbn [fst snd].
  rewrite (degree_ok _ _ Hdst). cbn [rbind].
  rewrite (degree_ok _ _ Hsrc). cbn [rbind].
  assert (Hne : forall (f : nat -> Z) m,
             decrease_to_max_value (map f (seq 0 (rows x))) m <> []).
  { intros f m E. apply (f_equal (@length Z)) in E.
    unfold decrease_to_max_value in E. rewrite !length_map, length_seq in E.
    cbn in E. lia. }
  destruct (Nat.eq_dec (CentralityEncoding.max_in_degree self) 0) as [Ei | Ei].
  - rewrite index_rows_empty_table; [reflexivity | congruence | apply Hne].
  - rewrite decrease_to_max_value_degree by lia.
    rewrite index_rows_clamped by (lia || assumption). cbn [rbind].
    rewrite index_rows_empty_table; [reflexivity | | apply Hne].
    destruct Hz; [contradiction | congruence].
Qed.

(** A centrality encoding whose in-degree table has no row. *)
Lemma centrality_forward_empty_table_witness :
  CentralityEncoding.forward
    {| CentralityEncoding.max_in_degree := 0;
       CentralityEncoding.max_out_degree := 4;
       CentralityEncoding.node_dim := 4;
       CentralityEncoding.z_in := zeros 0 4;
       CentralityEncoding.z_out := zeros 4 4 |}
    (zeros 3 4) ([0; 1], [1; 2])
  = Raise IndexError.
Proof.
  apply centrality_forward_empty_table.
  - reflexivity.
  - reflexivity.
  - left. reflexivity.
  - cbn. lia.
  - repeat constructor.
  - repeat constructor.
Defined.

(** ** SpatialEncoding *)

Lemma distances_ok (coords : tensor2) :
  exists dist, SpatialEncoding.distances coords = Ok dist /\
               rows dist = rows coords /\ cols dist = rows coords.
Proof.
  unfold SpatialEncoding.distances.
  rewrite mm_ok by reflexivity. cbn [rbind].
  eexists. split; [reflexivity |]. split; reflexivity.
Qed.

(** X5. [SpatialEncoding.forward] returns, and then an N x N matrix, exactly
    when [coords] has as many rows as [x] and [x] has [embedding_size]
    columns; otherwise it raises a RuntimeError. *)
Theorem spatial_forward_shape (lm : Libm) (self : SpatialEncoding.t) (x coords : tensor2) :
  (rows coords = rows x /\ cols x = SpatialEncoding.embedding_size self ->
   exists out, SpatialEncoding.forward lm self x coords = Ok out /\
               rows out = rows x /\ cols out = rows x) /\
  (rows coords <> rows x \/ cols x <> SpatialEncoding.embedding_size self ->
   SpatialEncoding.forward lm self x coords = Raise RuntimeError).
Proof.
  destruct (distances_ok coords) as [dist [Hd [Hr _]]].
  unfold SpatialEncoding.forward. rewrite Hd. cbn [rbind]. rewrite Hr.
  split.
  - intros [HN HD]. rewrite HN, HD, !Nat.eqb_refl. cbn [negb].
    eexists. split; [reflexivity |]. split; reflexivity.
  - intros H.
    destruct (Nat.eqb_spec (rows coords) (rows x)) as [HN | HN]; cbn [negb];
      [| reflexivity].
    destruct (Nat.eqb_spec (2 * cols x + 1) (2 * SpatialEncoding.embedding_size self + 1))
      as [HD | HD]; cbn [negb]; [| reflexivity].
    exfalso. destruct H as [H | H]; [contradiction | lia].
Qed.

Lemma spatial_forward_shape_witness :
  (exists out, SpatialEncoding.forward libm_example spatial_example (zeros 2 1) (zeros 2 3)
               = Ok out /\ rows out = 2 /\ cols out = 2) /\
  SpatialEncoding.forward libm_example spatial_example (zeros 2 1) (zeros 3 3)
  = Raise RuntimeError.
Proof.
  split.
  - apply (proj1 (spatial_forward_shape libm_example spatial_example (zeros 2 1) (zeros 2 3))).
    split; reflexivity.
  - apply (proj2 (spatial_forward_shape libm_example spatial_example (zeros 2 1) (zeros 3 3))).
    left. cbn. lia.
Defined.

(** The entries of a returned bias. *)
Lemma spatial_forward_entry (lm : Libm) (self : SpatialEncoding.t)
    (x coords dist out : tensor2) (i j : nat) :
  SpatialEncoding.distances coords = Ok dist ->
  SpatialEncoding.forward lm self x coords = Ok out ->
  i < rows x -> j < rows x ->
  tget out i j
  = div (vsum (vinit (SpatialEncoding.num_heads self)
                 (SpatialEncoding.gbf lm self
                    (SpatialEncoding.vdot (trow x i ++ [tget dist i j] ++ trow x j)
                       (SpatialEncoding.weights_dist self)))))
        (of_nat (SpatialEncoding.num_heads self)).
Proof.
  intros Hd Hf Hi Hj. unfold SpatialEncoding.forward in Hf.
  rewrite Hd in Hf. cbn [rbind] in Hf.
  destruct (negb (rows dist =? rows x)); [discriminate |].
  destruct (negb (2 * cols x + 1 =? 2 * SpatialEncoding.embedding_size self + 1));
    [discriminate |].
  assert (Hout : out = tinit (rows x) (rows x)
            (fun i j =>
               div (vsum (vinit (SpatialEncoding.num_heads self)
                            (SpatialEncoding.gbf lm self
                               (tget (tinit (rows x) (rows x)
                                        (fun i j =>
                                           SpatialEncoding.vdot
                                             (trow x i ++ [tget dist i j] ++ trow x j)
                                             (SpatialEncoding.weights_dist self))) i j))))
                   (of_nat (SpatialEncoding.num_heads self))))
    by congruence.
  rewrite Hout. rewrite tget_tinit by assumption. now rewrite tget_tinit by assumption.
Qed.

Lemma vget_trow (t : tensor2) (i k : nat) : k < cols t -> vget (trow t i) k = tget t i k.
Proof. intros Hk. unfold vget, trow. now apply nth_map_seq. Qed.

(** X6. [SpatialEncoding.forward] lets every NaN through: where the
    distance of the pair (i, j) is NaN, or a feature of node [i] or of node
    [j] is NaN, the returned bias at (i, j) is NaN. *)
Theorem spatial_forward_nan_propagates (lm : Libm) (self : SpatialEncoding.t)
    (x coords dist out : tensor2) (i j : nat) :
  SpatialEncoding.distances coords = Ok dist ->
  SpatialEncoding.forward lm self x coords = Ok out ->
  i < rows x -> j < rows x ->
  tget dist i j = nan \/
  (exists k, k < cols x /\ (tget x i k = nan \/ tget x j k = nan)) ->
  tget out i j = nan.
Proof.
  intros Hd Hf Hi Hj Hnan.
  rewrite (spatial_forward_entry lm self x coords dist out i j Hd Hf Hi Hj).
  assert (Hv : SpatialEncoding.vdot (trow x i ++ [tget dist i j] ++ trow x j)
                 (SpatialEncoding.weights_dist self) = nan).
  { unfold SpatialEncoding.vdot.
    destruct Hnan as [Hn | [k [Hk [Hn | Hn]]]].
    - apply dot_nan_at with (k0 := cols x).
      + rewrite !length_app, !length_trow. cbn. lia.
      + unfold vget. rewrite app_nth2 by (rewrite length_trow; lia).
        rewrite length_trow, Nat.sub_diag. exact Hn.
    - apply dot_nan_at with (k0 := k).
      + rewrite !length_app, !length_trow. cbn. lia.
      + unfold vget. rewrite app_nth1 by (rewrite length_trow; lia).
        fold (vget (trow x i) k). now rewrite vget_trow.
    - apply dot_nan_at with (k0 := cols x + 1 + k).
      + rewrite !length_app, !length_trow. cbn. lia.
      + unfold vget. rewrite app_nth2 by (rewrite length_trow; lia).
        rewrite length_trow.
        replace (cols x + 1 + k - cols x) with (S k) by lia. cbn [app nth].
        fold (vget (trow x j) k). now rewrite vget_trow. }
  rewrite Hv.
  rewrite (vinit_ext _ _ (fun _ => nan)) by (intros; apply gbf_nan).
  apply mean_heads_nan.
Qed.

Lemma spatial_forward_nan_propagates_witness :
  exists out,
    SpatialEncoding.forward libm_example spatial_example
      (tinit 2 1 (fun i _ => if i =? 0 then nan else one)) (zeros 2 3) = Ok out /\
    tget out 0 1 = nan /\ tget out 1 0 = nan.
Proof.
  eexists. split; [vm_compute; reflexivity |].
  split.
  - eapply (spatial_forward_nan_propagates libm_example spatial_example
              (tinit 2 1 (fun i _ => if i =? 0 then nan else one)) (zeros 2 3) _ _ 0 1);
      [vm_compute; reflexivity | vm_compute; reflexivity | cbn; lia | cbn; lia |].
    right. exists 0. split; [cbn; lia | left; reflexivity].
  - eapply (spatial_forward_nan_propagates libm_example spatial_example
              (tinit 2 1 (fun i _ => if i =? 0 then nan else one)) (zeros 2 3) _ _ 1 0);
      [vm_compute; reflexivity | vm_compute; reflexivity | cbn; lia | cbn; lia |].
    right. exists 0. split; [cbn; lia | right; reflexivity].
Defined.

(** X7. Without a head the mean over the heads is 0 / 0: with
    [num_heads = 0] every entry of a returned bias is NaN. *)
Theorem spatial_forward_no_head (lm : Libm) (self : SpatialEncoding.t)
    (x coords out : tensor2) (i j : nat) :
  SpatialEncoding.num_heads self = 0 ->
  SpatialEncoding.forward lm self x coords = Ok out ->
  i < rows x -> j < rows x ->
  tget out i j = nan.
Proof.
  intros HH Hf Hi Hj.
  destruct (distances_ok coords) as [dist [Hd _]].
  rewrite (spatial_forward_entry lm self x coords dist out i j Hd Hf Hi Hj).
  rewrite HH. reflexivity.
Qed.

Lemma spatial_forward_no_head_witness :
  exists out,
    SpatialEncoding.forward libm_example spatial_no_head_example
      (zeros 2 1) (zeros 2 3) = Ok out /\
    tget out 0 1 = nan.
Proof.
  eexists. split; [vm_compute; reflexivity |].
  eapply (spatial_forward_no_head libm_example spatial_no_head_example
            (zeros 2 1) (zeros 2 3) _ 0 1);
    [reflexivity | vm_compute; reflexivity | cbn; lia | cbn; lia].
Defined.

(** ** EdgeEncoding *)

Lemma edge_forward_run (self : EdgeEncoding.t) (x edge_attr : tensor2)
    (edge_paths : edge_paths_t) (w : World) :
  let w1 := {| clock := clock w; ticks := S (ticks w);
               stdout := stdout w ++ [clock w (ticks w)] |} in
  EdgeEncoding.forward self x edge_attr edge_paths w
  = match EdgeEncoding.loop_src self edge_attr edge_paths (zeros (rows x) (rows x)) with
    | Ok cij =>
        (Ok (tmap nan_to_num cij),
         {| clock := clock w; ticks := S (S (ticks w));
            stdout := (stdout w ++ [clock w (ticks w)]) ++ [clock w (S (ticks w))] |})
    | Raise e => (Raise e, w1)
    end.
Proof.
  unfold EdgeEncoding.forward, bind, lift, ret, print_now. cbn.
  destruct (EdgeEncoding.loop_src _ _ _ _); reflexivity.
Qed.

(** X8. A completed [EdgeEncoding.forward] has read the clock twice and
    printed exactly two lines, the first before the loops and the second
    after them; a call that raises has printed only the first. *)
Theorem edge_forward_prints (self : EdgeEncoding.t) (x edge_attr : tensor2)
    (edge_paths : edge_paths_t) (w : World) :
  match EdgeEncoding.forward self x edge_attr edge_paths w with
  | (Ok _, w') =>
      stdout w' = stdout w ++ [clock w (ticks w); clock w (S (ticks w))] /\
      ticks w' = 2 + ticks w
  | (Raise _, w') =>
      stdout w' = stdout w ++ [clock w (ticks w)] /\ ticks w' = 1 + ticks w
  end.
Proof.
  rewrite edge_forward_run.
  destruct (EdgeEncoding.loop_src _ _ _ _); cbn [stdout ticks].
  - split; [| reflexivity]. now rewrite <- app_assoc.
  - split; reflexivity.
Qed.

Lemma nan_to_num_finite (a : f32) : is_finite (nan_to_num a) = true.
Proof. destruct a as [s | [|] | | s m e]; reflexivity. Qed.

Lemma edge_set_item_shape (cij c' : tensor2) (src dst : nat) (value : vector) :
  EdgeEncoding.set_item cij src dst value = Ok c' ->
  rows c' = rows cij /\ cols c' = cols cij.
Proof.
  intros H. apply edge_set_item_ok in H. destruct H as [_ [_ [Hr [Hc _]]]]. now split.
Qed.

Lemma edge_loop_dst_shape (self : EdgeEncoding.t) (edge_attr : tensor2) (src : nat)
    (destinations : list (nat * list nat)) (cij c' : tensor2) :
  EdgeEncoding.loop_dst self edge_attr src destinations cij = Ok c' ->
  rows c' = rows cij /\ cols c' = cols cij.
Proof.
  revert cij. induction destinations as [| [d p] rest IH]; cbn; intros cij H.
  - inversion H. now split.
  - destruct (EdgeEncoding.path_encoding self edge_attr p) as [enc |];
      cbn [rbind] in H; [| discriminate].
    destruct (EdgeEncoding.set_item cij src d enc) as [c1 |] eqn:Hs;
      cbn [rbind] in H; [| discriminate].
    apply edge_set_item_shape in Hs. apply IH in H.
    destruct Hs, H. split; congruence.
Qed.

Lemma edge_loop_src_shape (self : EdgeEncoding.t) (edge_attr : tensor2)
    (edge_paths : edge_paths_t) (cij c' : tensor2) :
  EdgeEncoding.loop_src self edge_attr edge_paths cij = Ok c' ->
  rows c' = rows cij /\ cols c' = cols cij.
Proof.
  revert cij. induction edge_paths as [| [s ds] rest IH]; cbn; intros cij H.
  - inversion H. now split.
  - destruct (EdgeEncoding.loop_dst self edge_attr s ds cij) as [c1 |] eqn:Hd;
      cbn [rbind] in H; [| discriminate].
    apply edge_loop_dst_shape in Hd. apply IH in H.
    destruct Hd, H. split; congruence.
Qed.

Lemma edge_forward_ok_inv (self : EdgeEncoding.t) (x edge_attr : tensor2)
    (edge_paths : edge_paths_t) (w : World) (out : tensor2) :
  fst (EdgeEncoding.forward self x edge_attr edge_paths w) = Ok out ->
  exists cij,
    EdgeEncoding.loop_src self edge_attr edge_paths (zeros (rows x) (rows x)) = Ok cij /\
    rows cij = rows x /\ cols cij = rows x /\
    out = tinit (rows x) (rows x) (fun i j => nan_to_num (tget cij i j)).
Proof.
  rewrite edge_forward_value.
  destruct (EdgeEncoding.loop_src _ _ _ _) as [cij |] eqn:Hl; cbn [rbind]; [| discriminate].
  intros H. exists cij. split; [reflexivity |].
  apply edge_loop_src_shape in Hl. destruct Hl as [Hr Hc]. cbn in Hr, Hc.
  split; [exact Hr |]. split; [exact Hc |].
  unfold tmap in H. rewrite Hr, Hc in H. congruence.
Qed.

(** X9. A returned edge encoding is an N x N matrix of finite numbers: the
    final [nan_to_num] leaves neither a NaN nor an infinity. *)
Theorem edge_forward_finite (self : EdgeEncoding.t) (x edge_attr : tensor2)
    (edge_paths : edge_paths_t) (w : World) (out : tensor2) :
  fst (EdgeEncoding.forward self x edge_attr edge_paths w) = Ok out ->
  rows out = rows x /\ cols out = rows x /\
  forall i j, i < rows x -> j < rows x -> is_finite (tget out i j) = true.
Proof.
  intros H. apply edge_forward_ok_inv in H. destruct H as [cij [_ [_ [_ ->]]]].
  split; [reflexivity |]. split; [reflexivity |].
  intros i j Hi Hj. rewrite tget_tinit by assumption. apply nan_to_num_finite.
Qed.

Lemma edge_forward_finite_witness :
  exists out,
    fst (EdgeEncoding.forward edge_encoding_example (zeros 2 1)
           (full 7 1 pinf) [(0, [(1, [3])])] world0) = Ok out /\
    is_finite (tget out 0 1) = true.
Proof.
  eexists. split; [vm_compute; reflexivity |].
  eapply (edge_forward_finite edge_encoding_example (zeros 2 1) (full 7 1 pinf)
            [(0, [(1, [3])])] world0 _);
    [vm_compute; reflexivity | cbn; lia | cbn; lia].
Defined.

Lemma edge_forward_ok_single (self : EdgeEncoding.t) (x edge_attr : tensor2)
    (edge_paths : edge_paths_t) (w : World) (out : tensor2) :
  fst (EdgeEncoding.forward self x edge_attr edge_paths w) = Ok out ->
  forall src destinations dst path,
    In (src, destinations) edge_paths -> In (dst, path) destinations ->
    Nat.min (EdgeEncoding.max_path_distance self) (length path) = 1.
Proof.
  intros H src destinations dst path Hs Hd.
  apply edge_forward_ok_inv in H. destruct H as [cij [Hl _]].
  pose proof (edge_loop_src_single _ _ _ _ _ Hl src destinations dst path Hs Hd) as E.
  now rewrite length_firstn in E.
Qed.

(** X10. [EdgeEncoding.forward] returns only when every path of the mapping
    has exactly one edge after truncation to [max_path_distance]: an empty
    path, or a path of two or more edges when [max_path_distance] is at
    least two, makes the assignment to [cij[src][dst]] raise. *)
Theorem edge_forward_single_edge_only (self : EdgeEncoding.t) (x edge_attr : tensor2)
    (edge_paths : edge_paths_t) (w : World) (out : tensor2) :
  fst (EdgeEncoding.forward self x edge_attr edge_paths w) = Ok out ->
  forall src destinations dst path,
    In (src, destinations) edge_paths -> In (dst, path) destinations ->
    Nat.min (EdgeEncoding.max_path_distance self) (length path) = 1.
Proof.
  intros H. exact (edge_forward_ok_single self x edge_attr edge_paths w out H).
Qed.

Lemma edge_forward_single_edge_only_witness :
  Nat.min (EdgeEncoding.max_path_distance edge_encoding_example) (length [3]) = 1.
Proof.
  exact (edge_forward_single_edge_only edge_encoding_example (zeros 2 1) edge_attr_example
           [(0, [(1, [3])])] world0 _ edge_forward_single_edge
           0 [(1, [3])] 1 [3] (or_introl eq_refl) (or_introl eq_refl)).
Defined.

Lemma edge_loop_dst_untouched (self : EdgeEncoding.t) (edge_attr : tensor2) (src : nat)
    (destinations : list (nat * list nat)) (cij c' : tensor2) (i j : nat) :
  EdgeEncoding.loop_dst self edge_attr src destinations cij = Ok c' ->
  i < rows cij -> j < cols cij ->
  i <> src \/ ~ In j (map fst destinations) ->
  tget c' i j = tget cij i j.
Proof.
  revert cij. induction destinations as [| [d p] rest IH]; cbn [EdgeEncoding.loop_dst];
    intros cij H Hi Hj Hne.
  - inversion H. reflexivity.
  - destruct (EdgeEncoding.path_encoding self edge_attr p) as [enc |];
      cbn [rbind] in H; [| discriminate].
    destruct (EdgeEncoding.set_item cij src d enc) as [c1 |] eqn:Hs;
      cbn [rbind] in H; [| discriminate].
    apply edge_set_item_ok in Hs.
    destruct Hs as [_ [_ [Hr [Hc [e [_ Hc1]]]]]].
    rewrite (IH c1 H) by (try congruence; cbn in Hne; tauto).
    rewrite Hc1, tget_tinit by assumption.
    destruct (Nat.eqb_spec i src) as [Ei | Ei]; [| reflexivity].
    destruct (Nat.eqb_spec j d) as [Ej | Ej]; [| reflexivity].
    exfalso. cbn in Hne. destruct Hne as [Hne | Hne]; [contradiction |].
    apply Hne. left. now symmetry.
Qed.

Lemma edge_loop_src_untouched (self : EdgeEncoding.t) (edge_attr : tensor2)
    (edge_paths : edge_paths_t) (cij c' : tensor2) (i j : nat) :
  EdgeEncoding.loop_src self edge_attr edge_paths cij = Ok c' ->
  i < rows cij -> j < cols cij ->
  (forall destinations, In (i, destinations) edge_paths -> ~ In j (map fst destinations)) ->
  tget c' i j = tget cij i j.
Proof.
  revert cij. induction edge_paths as [| [s ds] rest IH]; cbn [EdgeEncoding.loop_src];
    intros cij H Hi Hj Hne.
  - inversion H. reflexivity.
  - destruct (EdgeEncoding.loop_dst self edge_attr s ds cij) as [c1 |] eqn:Hd;
      cbn [rbind] in H; [| discriminate].
    pose proof (edge_loop_dst_shape _ _ _ _ _ _ Hd) as [Hr Hc].
    rewrite (IH c1 H) by (try congruence; intros ds' Hin; apply Hne; now right).
    apply (edge_loop_dst_untouched _ _ _ _ _ _ _ _ Hd Hi Hj).
    destruct (Nat.eq_dec i s) as [-> | Ei]; [| now left].
    right. apply Hne. now left.
Qed.

(** X11. In a returned edge encoding, the entry of every pair of nodes that
    is not a key of the mapping is zero. *)
Theorem edge_forward_unlisted_zero (self : EdgeEncoding.t) (x edge_attr : tensor2)
    (edge_paths : edge_paths_t) (w : World) (out : tensor2) (i j : nat) :
  fst (EdgeEncoding.forward self x edge_attr edge_paths w) = Ok out ->
  i < rows x -> j < rows x ->
  ~ listed edge_paths i j ->
  tget out i j = zero.
Proof.
  intros H Hi Hj Hn.
  apply edge_forward_ok_inv in H. destruct H as [cij [Hl [_ [_ ->]]]].
  rewrite tget_tinit by assumption.
  rewrite (edge_loop_src_untouched _ _ _ _ _ i j Hl) by
    (try assumption;
     intros ds Hds Hin; apply in_map_iff in Hin; destruct Hin as [[j' p] [E Hin]];
     cbn in E; subst j'; apply Hn; now exists ds, p).
  unfold zeros, full. now rewrite tget_tinit.
Qed.

Lemma edge_forward_unlisted_zero_witness :
  exists out,
    fst (EdgeEncoding.forward edge_encoding_example (zeros 2 1) edge_attr_example
           [(0, [(1, [3])])] world0) = Ok out /\
    tget out 1 0 = zero.
Proof.
  eexists. split; [exact edge_forward_single_edge |].
  apply (edge_forward_unlisted_zero edge_encoding_example (zeros 2 1) edge_attr_example
           [(0, [(1, [3])])] world0 _ 1 0 edge_forward_single_edge).
  - cbn. lia.
  - cbn. lia.
  - intros [ds [p [[E | []] _]]]. discriminate.
Defined.

Lemma firstn_idem {A : Type} (n : nat) (l : list A) : firstn n (firstn n l) = firstn n l.
Proof. rewrite firstn_firstn. now rewrite Nat.min_id. Qed.

Lemma edge_path_encoding_truncated (self : EdgeEncoding.t) (edge_attr : tensor2)
    (path : list nat) :
  EdgeEncoding.path_encoding self edge_attr
    (firstn (EdgeEncoding.max_path_distance self) path)
  = EdgeEncoding.path_encoding self edge_attr path.
Proof. unfold EdgeEncoding.path_encoding. now rewrite firstn_idem. Qed.

(** X12. Only the first [max_path_distance] edges of a path are looked at:
    cutting every path of the mapping to its first [max_path_distance]
    edges changes neither the result of [EdgeEncoding.forward] nor what it
    prints, so that an edge index out of range beyond the cut goes
    unnoticed. *)
Theorem edge_forward_truncation (self : EdgeEncoding.t) (x edge_attr : tensor2)
    (edge_paths : edge_paths_t) (w : World) :
  EdgeEncoding.forward self x edge_attr
    (truncate_paths (EdgeEncoding.max_path_distance self) edge_paths) w
  = EdgeEncoding.forward self x edge_attr edge_paths w.
Proof.
  assert (Hd : forall src ds cij,
             EdgeEncoding.loop_dst self edge_attr src
               (map (fun dp => (fst dp, firstn (EdgeEncoding.max_path_distance self) (snd dp))) ds)
               cij
             = EdgeEncoding.loop_dst self edge_attr src ds cij).
  { intros src ds. induction ds as [| [d p] rest IH]; intros cij; cbn; [reflexivity |].
    rewrite edge_path_encoding_truncated.
    destruct (EdgeEncoding.path_encoding self edge_attr p); cbn [rbind]; [| reflexivity].
    destruct (EdgeEncoding.set_item cij src d a); cbn [rbind]; [| reflexivity].
    apply IH. }
  assert (Hs : forall cij,
             EdgeEncoding.loop_src self edge_attr
               (truncate_paths (EdgeEncoding.max_path_distance self) edge_paths) cij
             = EdgeEncoding.loop_src self edge_attr edge_paths cij).
  { induction edge_paths as [| [s ds] rest IH]; intros cij; cbn; [reflexivity |].
    rewrite Hd.
    destruct (EdgeEncoding.loop_dst self edge_attr s ds cij); cbn [rbind]; [| reflexivity].
    apply IH. }
  rewrite !edge_forward_run, Hs. reflexivity.
Qed.

Lemma vsum_map_mul (n : nat) (g f h : nat -> f32) :
  (forall k, k < n -> g k = mul (f k) (h k)) ->
  vsum (map g (seq 0 n)) = dot n f h.
Proof.
  intros Hg. unfold vsum, dot. generalize zero as acc.
  assert (H : forall k, In k (seq 0 n) -> k < n) by (intros k Hk; apply in_seq in Hk; lia).
  revert H. generalize (seq 0 n) as l.
  induction l as [| k l IH]; intros H acc; cbn; [reflexivity |].
  rewrite Hg by (apply H; now left). apply IH. intros k' Hk'. apply H. now right.
Qed.

Lemma py_index_nat (n e : nat) :
  py_index n (Z.of_nat e) = if e <? n then Ok e else Raise IndexError.
Proof.
  destruct (Nat.ltb_spec e n) as [H | H]; [now apply py_index_of_nat |].
  unfold py_index.
  destruct (Z.leb_spec 0 (Z.of_nat e)), (Z.ltb_spec (Z.of_nat e) (Z.of_nat n)),
    (Z.leb_spec (- Z.of_nat n) (Z.of_nat e)), (Z.ltb_spec (Z.of_nat e) 0);
    cbn; try reflexivity; lia.
Qed.

Lemma slice_index_nat (n k : nat) : slice_index n (Z.of_nat k) = Nat.min k n.
Proof.
  unfold slice_index. destruct (Z.ltb_spec (Z.of_nat k) 0); [lia |].
  now rewrite Nat2Z.id.
Qed.

(** The right-hand side of the assignment for a path of one edge after
    truncation. *)
Lemma edge_path_encoding_one (self : EdgeEncoding.t) (edge_attr : tensor2)
    (path : list nat) (e0 : nat) :
  firstn (EdgeEncoding.max_path_distance self) path = [e0] ->
  EdgeEncoding.path_encoding self edge_attr path
  = if e0 <? rows edge_attr
    then if (1 <=? rows (EdgeEncoding.edge_weights self))
            && (cols (EdgeEncoding.edge_weights self) =? cols edge_attr)
         then Ok [dot (cols (EdgeEncoding.edge_weights self))
                    (tget (EdgeEncoding.edge_weights self) 0) (tget edge_attr e0)]
         else Raise RuntimeError
    else Raise IndexError.
Proof.
  intros Hp. unfold EdgeEncoding.path_encoding, index_rows. rewrite Hp.
  cbn [map rmap length]. rewrite py_index_nat, slice_index_nat.
  destruct (e0 <? rows edge_attr); cbn [rbind]; [| reflexivity].
  unfold tmul, tmap2, same_shape. autorewrite with shape. cbn [length].
  destruct (Nat.leb_spec 1 (rows (EdgeEncoding.edge_weights self))) as [Hr | Hr].
  - rewrite Nat.min_l by exact Hr. cbn [Nat.sub Nat.eqb andb].
    destruct (Nat.eqb_spec (cols (EdgeEncoding.edge_weights self)) (cols edge_attr))
      as [Hc | Hc]; cbn [rbind]; [| reflexivity].
    unfold sum_dim1. autorewrite with shape.
    cbn [vinit seq map]. unfold trow. autorewrite with shape.
    f_equal. f_equal. apply vsum_map_mul. intros k Hk.
    rewrite tget_tinit by lia.
    rewrite tget_row_slice by lia.
    rewrite tget_tinit by (cbn; lia). reflexivity.
  - replace (Nat.min 1 (rows (EdgeEncoding.edge_weights self)) - 0 =? 1) with false
      by (symmetry; apply Nat.eqb_neq; lia).
    reflexivity.
Qed.

Lemma edge_loop_dst_written (self : EdgeEncoding.t) (edge_attr : tensor2) (src : nat)
    (destinations : list (nat * list nat)) (cij c' : tensor2) (dst : nat) (path : list nat) :
  EdgeEncoding.loop_dst self edge_attr src destinations cij = Ok c' ->
  NoDup (map fst destinations) ->
  In (dst, path) destinations ->
  src < rows cij /\ dst < cols cij /\
  exists e, EdgeEncoding.path_encoding self edge_attr path = Ok [e] /\ tget c' src dst = e.
Proof.
  revert cij. induction destinations as [| [d p] rest IH]; cbn [EdgeEncoding.loop_dst];
    intros cij H Hnd Hin.
  - contradiction.
  - destruct (EdgeEncoding.path_encoding self edge_attr p) as [enc |] eqn:He;
      cbn [rbind] in H; [| discriminate].
    destruct (EdgeEncoding.set_item cij src d enc) as [c1 |] eqn:Hs;
      cbn [rbind] in H; [| discriminate].
    apply edge_set_item_ok in Hs.
    destruct Hs as [Hsrc [Hd [Hr [Hc [e [-> Hc1]]]]]].
    cbn [map fst] in Hnd. inversion Hnd as [| d' l' Hnotin Hnd']. subst d' l'.
    destruct Hin as [E | Hin].
    + inversion E. subst d p. split; [exact Hsrc |]. split; [exact Hd |].
      exists e. split; [exact He |].
      rewrite (edge_loop_dst_untouched _ _ _ _ _ _ src dst H) by (try lia; now right).
      rewrite Hc1, tget_tinit by assumption. now rewrite !Nat.eqb_refl.
    + destruct (IH c1 H Hnd' Hin) as [H1 [H2 H3]].
      split; [lia |]. split; [lia |]. exact H3.
Qed.

Lemma edge_loop_src_written (self : EdgeEncoding.t) (edge_attr : tensor2)
    (edge_paths : edge_paths_t) (cij c' : tensor2)
    (src : nat) (destinations : list (nat * list nat)) (dst : nat) (path : list nat) :
  EdgeEncoding.loop_src self edge_attr edge_paths cij = Ok c' ->
  distinct_keys edge_paths ->
  In (src, destinations) edge_paths -> In (dst, path) destinations ->
  src < rows cij /\ dst < cols cij /\
  exists e, EdgeEncoding.path_encoding self edge_attr path = Ok [e] /\ tget c' src dst = e.
Proof.
  revert cij. induction edge_paths as [| [s ds] rest IH]; cbn [EdgeEncoding.loop_src];
    intros cij H [Hnd Hall] Hin Hin'.
  - contradiction.
  - destruct (EdgeEncoding.loop_dst self edge_attr s ds cij) as [c1 |] eqn:Hd;
      cbn [rbind] in H; [| discriminate].
    pose proof (edge_loop_dst_shape _ _ _ _ _ _ Hd) as [Hr Hc].
    cbn [map fst] in Hnd. inversion Hnd as [| s' l' Hnotin Hnd']. subst s' l'.
    inversion Hall as [| sd l' Hds Hall']. subst sd l'. cbn [snd] in Hds.
    destruct Hin as [E | Hin].
    + inversion E. subst s ds.
      destruct (edge_loop_dst_written _ _ _ _ _ _ dst path Hd Hds Hin')
        as [H1 [H2 [e [He Hv]]]].
      split; [exact H1 |]. split; [exact H2 |]. exists e. split; [exact He |].
      rewrite (edge_loop_src_untouched _ _ _ _ _ src dst H); [exact Hv | lia | lia |].
      intros ds' Hds'. exfalso. apply Hnotin.
      apply in_map_iff. now exists (src, ds').
    + destruct (IH c1 H (conj Hnd' Hall') Hin Hin') as [H1 [H2 H3]].
      split; [lia |]. split; [lia |]. exact H3.
Qed.

(** X13. With [edge_weights] of the width of [edge_attr], in a returned
    edge encoding over a mapping with distinct keys, the entry of a listed
    pair (src, dst) is [nan_to_num] of the dot product of the first row of
    [edge_weights] with the features of the first edge of its path; that
    edge is an edge of [edge_attr] and both nodes are among the N nodes. *)
Theorem edge_forward_listed_entry (self : EdgeEncoding.t) (x edge_attr : tensor2)
    (edge_paths : edge_paths_t) (w : World) (out : tensor2)
    (src : nat) (destinations : list (nat * list nat)) (dst : nat) (path : list nat) :
  cols (EdgeEncoding.edge_weights self) = cols edge_attr ->
  fst (EdgeEncoding.forward self x edge_attr edge_paths w) = Ok out ->
  distinct_keys edge_paths ->
  In (src, destinations) edge_paths -> In (dst, path) destinations ->
  exists e0,
    hd_error path = Some e0 /\ e0 < rows edge_attr /\
    src < rows x /\ dst < rows x /\
    tget out src dst
    = nan_to_num (dot (cols edge_attr)
                    (tget (EdgeEncoding.edge_weights self) 0) (tget edge_attr e0)).
Proof.
  intros Hwidth H Hk Hin Hin'. rewrite <- Hwidth.
  apply edge_forward_ok_inv in H. destruct H as [cij [Hl [_ [_ ->]]]].
  pose proof (edge_loop_src_single _ _ _ _ _ Hl src destinations dst path Hin Hin') as Hone.
  destruct (edge_loop_src_written _ _ _ _ _ _ _ _ _ Hl Hk Hin Hin')
    as [Hs [Hd [e [He Hv]]]].
  unfold zeros, full in Hs, Hd. rewrite ?rows_tinit, ?cols_tinit in Hs, Hd.
  destruct (firstn (EdgeEncoding.max_path_distance self) path) as [| e0 [| e1 t]] eqn:Hf;
    try discriminate.
  exists e0.
  assert (Hhd : hd_error path = Some e0).
  { destruct path as [| p0 path']; [destruct (EdgeEncoding.max_path_distance self); discriminate |].
    destruct (EdgeEncoding.max_path_distance self); [discriminate |].
    cbn in Hf. inversion Hf. reflexivity. }
  rewrite (edge_path_encoding_one self edge_attr path e0 Hf) in He.
  destruct (Nat.ltb_spec e0 (rows edge_attr)) as [He0 | He0]; [| discriminate].
  destruct (_ && _); [| discriminate].
  assert (Ee : e = dot (cols (EdgeEncoding.edge_weights self))
                     (tget (EdgeEncoding.edge_weights self) 0) (tget edge_attr e0))
    by congruence.
  split; [exact Hhd |]. split; [exact He0 |]. split; [exact Hs |]. split; [exact Hd |].
  rewrite tget_tinit by assumption. now rewrite Hv, Ee.
Qed.

Lemma edge_forward_listed_entry_witness :
  exists out e0,
    fst (EdgeEncoding.forward edge_encoding_example (zeros 2 1) edge_attr_example
           [(0, [(1, [3])])] world0) = Ok out /\
    hd_error [3] = Some e0 /\ tget out 0 1 = one.
Proof.
  destruct (edge_forward_listed_entry edge_encoding_example (zeros 2 1) edge_attr_example
              [(0, [(1, [3])])] world0 _ 0 [(1, [3])] 1 [3] eq_refl edge_forward_single_edge)
    as [e0 [Hh [_ [_ [_ Hv]]]]].
  - split.
    + cbn. repeat constructor; intros [].
    + repeat constructor; cbn; intros [].
  - left. reflexivity.
  - left. reflexivity.
  - eexists. exists e0. split; [exact edge_forward_single_edge |]. split; [exact Hh |].
    rewrite Hv. inversion Hh. subst e0. vm_compute. reflexivity.
Defined.

Section EdgeBounds.

Variable self : EdgeEncoding.t.
Variable edge_attr : tensor2.
Variable N : nat.

Hypothesis Hrows : 1 <= rows (EdgeEncoding.edge_weights self).
Hypothesis Hcols : cols (EdgeEncoding.edge_weights self) = cols edge_attr.

Lemma edge_path_encoding_one_ok (path : list nat) (e0 : nat) :
  firstn (EdgeEncoding.max_path_distance self) path = [e0] -> e0 < rows edge_attr ->
  exists e, EdgeEncoding.path_encoding self edge_attr path = Ok [e].
Proof.
  intros Hp He. rewrite (edge_path_encoding_one self edge_attr path e0 Hp).
  replace (e0 <? rows edge_attr) with true by (symmetry; now apply Nat.ltb_lt).
  replace (1 <=? rows (EdgeEncoding.edge_weights self)) with true
    by (symmetry; now apply Nat.leb_le).
  rewrite Hcols, Nat.eqb_refl. cbn [andb]. eexists. reflexivity.
Qed.

Lemma edge_loop_dst_bounds (src : nat) (destinations : list (nat * list nat))
    (cij : tensor2) :
  (forall dst path, In (dst, path) destinations ->
     exists e0, firstn (EdgeEncoding.max_path_distance self) path = [e0] /\
                e0 < rows edge_attr) ->
  rows cij = N -> cols cij = N ->
  (Forall (fun dp => src < N /\ fst dp < N) destinations ->
   exists c', EdgeEncoding.loop_dst self edge_attr src destinations cij = Ok c') /\
  (Exists (fun dp => N <= src \/ N <= fst dp) destinations ->
   EdgeEncoding.loop_dst self edge_attr src destinations cij = Raise IndexError).
Proof.
  revert cij. induction destinations as [| [d p] rest IH]; intros cij Hp Hr Hc.
  - split; intros H; [now exists cij | inversion H].
  - destruct (Hp d p (or_introl eq_refl)) as [e0 [Hf He0]].
    destruct (edge_path_encoding_one_ok p e0 Hf He0) as [e He].
    cbn [EdgeEncoding.loop_dst]. rewrite He. cbn [rbind].
    unfold EdgeEncoding.set_item. rewrite Hr, Hc.
    destruct (Nat.leb_spec N src) as [Hs | Hs].
    + split; intros H; [| reflexivity].
      inversion H as [| dp l [Hlt _] _]. lia.
    + destruct (Nat.leb_spec N d) as [Hd | Hd].
      * split; intros H; [| reflexivity].
        inversion H as [| dp l [_ Hlt] _]. cbn in Hlt. lia.
      * cbn [rbind].
        match goal with
        | |- context [EdgeEncoding.loop_dst self edge_attr src rest ?c] =>
            destruct (IH c (fun dst path Hin => Hp dst path (or_intror Hin))
                        eq_refl eq_refl) as [IH1 IH2]
        end.
        split; intros H.
        -- apply IH1. now inversion H.
        -- apply IH2. inversion H as [dp l Hbad | dp l Hbad]; [| exact Hbad].
           cbn in Hbad. lia.
Qed.

Lemma edge_loop_src_bounds (edge_paths : edge_paths_t) (cij : tensor2) :
  one_edge_paths self edge_attr edge_paths ->
  rows cij = N -> cols cij = N ->
  (Forall (fun sd => Forall (fun dp => fst sd < N /\ fst dp < N) (snd sd)) edge_paths ->
   exists c', EdgeEncoding.loop_src self edge_attr edge_paths cij = Ok c') /\
  (Exists (fun sd => Exists (fun dp => N <= fst sd \/ N <= fst dp) (snd sd)) edge_paths ->
   EdgeEncoding.loop_src self edge_attr edge_paths cij = Raise IndexError).
Proof.
  revert cij. induction edge_paths as [| [s ds] rest IH]; intros cij Hp Hr Hc.
  - split; intros H; [now exists cij | inversion H].
  - cbn [EdgeEncoding.loop_src].
    destruct (edge_loop_dst_bounds s ds cij
                (fun dst path Hin => Hp s ds dst path (or_introl eq_refl) Hin) Hr Hc)
      as [Hd1 Hd2].
    assert (Hp' : one_edge_paths self edge_attr rest)
      by (intros s' ds' d' p' Hin Hin'; exact (Hp s' ds' d' p' (or_intror Hin) Hin')).
    destruct (Forall_Exists_dec (fun dp : nat * list nat => s < N /\ fst dp < N)
                (fun dp => match lt_dec s N, lt_dec (fst dp) N with
                           | left a, left b => left (conj a b)
                           | right a, _ => right (fun H => a (proj1 H))
                           | _, right b => right (fun H => b (proj2 H))
                           end) ds) as [Hgood | Hbad].
    + destruct (Hd1 Hgood) as [c1 Hc1]. rewrite Hc1. cbn [rbind].
      pose proof (edge_loop_dst_shape _ _ _ _ _ _ Hc1) as [Hr1 Hc1'].
      destruct (IH c1 Hp' ltac:(congruence) ltac:(congruence)) as [IH1 IH2].
      split; intros H.
      * apply IH1. now inversion H.
      * apply IH2. inversion H as [sd l Hb | sd l Hb]; [| exact Hb].
        exfalso. cbn [fst snd] in Hb.
        apply Exists_exists in Hb. destruct Hb as [dp [Hin Hb]].
        rewrite Forall_forall in Hgood. specialize (Hgood dp Hin). lia.
    + assert (Hbad' : Exists (fun dp : nat * list nat => N <= s \/ N <= fst dp) ds).
      { apply Exists_exists in Hbad. destruct Hbad as [dp [Hin Hb]].
        apply Exists_exists. exists dp. split; [exact Hin | lia]. }
      rewrite (Hd2 Hbad'). cbn [rbind]. split; intros H; [| reflexivity].
      exfalso. inversion H as [| sd l Hg _]. cbn [fst snd] in Hg.
      apply Exists_exists in Hbad'. destruct Hbad' as [dp [Hin Hb]].
      rewrite Forall_forall in Hg. specialize (Hg dp Hin). lia.
Qed.

End EdgeBounds.

(** X14. For a mapping all of whose paths have, after truncation, one edge
    of [edge_attr], with at least one row of [edge_weights] of the width of
    [edge_attr]: [EdgeEncoding.forward] returns when both nodes of every
    listed pair are among the N nodes, and raises an IndexError when a
    listed pair names a node outside them. *)
Theorem edge_forward_bounds (self : EdgeEncoding.t) (x edge_attr : tensor2)
    (edge_paths : edge_paths_t) (w : World) :
  1 <= rows (EdgeEncoding.edge_weights self) ->
  cols (EdgeEncoding.edge_weights self) = cols edge_attr ->
  one_edge_paths self edge_attr edge_paths ->
  ((forall i j, listed edge_paths i j -> i < rows x /\ j < rows x) ->
   exists out, fst (EdgeEncoding.forward self x edge_attr edge_paths w) = Ok out) /\
  ((exists i j, listed edge_paths i j /\ (rows x <= i \/ rows x <= j)) ->
   fst (EdgeEncoding.forward self x edge_attr edge_paths w) = Raise IndexError).
Proof.
  intros Hr Hc Hp. rewrite edge_forward_value.
  destruct (edge_loop_src_bounds self edge_attr (rows x) Hr Hc edge_paths
              (zeros (rows x) (rows x)) Hp eq_refl eq_refl) as [H1 H2].
  split.
  - intros Hin. destruct H1 as [c' Hc'].
    + apply Forall_forall. intros [s ds] Hs. apply Forall_forall. intros [d p] Hd.
      cbn [fst snd] in *. apply Hin. now exists ds, p.
    + rewrite Hc'. cbn [rbind]. eexists. reflexivity.
  - intros [i [j [[ds [p [Hs Hd]]] Hout]]]. rewrite H2; [reflexivity |].
    apply Exists_exists. exists (i, ds). split; [exact Hs |].
    apply Exists_exists. exists (j, p). split; [exact Hd | exact Hout].
Qed.

Lemma edge_forward_bounds_witness :
  (exists out, fst (EdgeEncoding.forward edge_encoding_example (zeros 2 1) edge_attr_example
                      [(0, [(1, [3])])] world0) = Ok out) /\
  fst (EdgeEncoding.forward edge_encoding_example (zeros 2 1) edge_attr_example
         [(0, [(2, [3])])] world0) = Raise IndexError.
Proof.
  split.
  - apply (edge_forward_bounds edge_encoding_example (zeros 2 1) edge_attr_example
             [(0, [(1, [3])])] world0).
    + cbn. lia.
    + reflexivity.
    + intros s ds d p [E | []] Hd. inversion E. subst s ds.
      destruct Hd as [E' | []]. inversion E'. subst d p.
      exists 3. split; [reflexivity | cbn; lia].
    + intros i j [ds [p [[E | []] Hd]]]. inversion E. subst i ds.
      destruct Hd as [E' | []]. inversion E'. subst j p. cbn. lia.
  - apply (edge_forward_bounds edge_encoding_example (zeros 2 1) edge_attr_example
             [(0, [(2, [3])])] world0).
    + cbn. lia.
    + reflexivity.
    + intros s ds d p [E | []] Hd. inversion E. subst s ds.
      destruct Hd as [E' | []]. inversion E'. subst d p.
      exists 3. split; [reflexivity | cbn; lia].
    + exists 0, 2. split; [| right; cbn; lia].
      exists [(2, [3])], [3]. split; left; reflexivity.
Defined.

(** ** GraphormerAttentionHead *)

(** X15. When the keys and the queries do not have the same number of
    columns, [compute_a] raises a RuntimeError, without a batch pointer and
    with a batch pointer of at least two entries alike; with a batch pointer
    of fewer than two entries no block is visited and [compute_a] returns
    the N x N zero matrix whatever the dimensions are. *)
Theorem compute_a_dimensions (key query : tensor2) (ptr : option (list Z)) :
  (cols key <> cols query ->
   match ptr with None => True | Some p => 2 <= length p end ->
   GraphormerAttentionHead.compute_a key query ptr = Raise RuntimeError) /\
  (forall p, ptr = Some p -> length p <= 1 ->
   GraphormerAttentionHead.compute_a key query ptr = Ok (zeros (rows query) (rows query))).
Proof.
  split.
  - intros Hc Hp. destruct ptr as [p |]; unfold GraphormerAttentionHead.compute_a.
    + destruct (blocks p) as [| b bs] eqn:Hb; [now apply blocks_nonempty in Hp |].
      cbn [fold_left rbind]. cbv zeta.
      rewrite mm_raises by (autorewrite with shape; congruence). cbn [rbind].
      now apply fold_left_raise.
    + rewrite mm_raises by (autorewrite with shape; congruence). reflexivity.
  - intros p -> Hp. unfold GraphormerAttentionHead.compute_a.
    now rewrite blocks_short.
Qed.

Lemma compute_a_dimensions_witness :
  GraphormerAttentionHead.compute_a (zeros 3 2) (zeros 3 1) (Some [0; 1; 3]%Z)
    = Raise RuntimeError /\
  GraphormerAttentionHead.compute_a (zeros 3 2) (zeros 3 1) (Some [0%Z])
    = Ok (zeros 3 3).
Proof.
  split.
  - apply (proj1 (compute_a_dimensions (zeros 3 2) (zeros 3 1) (Some [0; 1; 3]%Z))).
    + cbn. lia.
    + cbn. lia.
  - apply (proj2 (compute_a_dimensions (zeros 3 2) (zeros 3 1) (Some [0%Z])) [0%Z]).
    + reflexivity.
    + cbn. lia.
Defined.

Lemma printed_printed (w : World) (n m : nat) : printed (printed w n) m = printed w (n + m).
Proof.
  unfold printed. cbn [clock ticks stdout]. f_equal; [lia |].
  rewrite <- app_assoc. f_equal. now rewrite seq_app, map_app.
Qed.

Lemma printed_0 (w : World) : printed w 0 = w.
Proof.
  unfold printed. cbn. rewrite app_nil_r, Nat.add_0_r. now destruct w.
Qed.

Lemma edge_forward_world (self : EdgeEncoding.t) (x edge_attr : tensor2)
    (edge_paths : edge_paths_t) (w w' : World) (c : tensor2) :
  EdgeEncoding.forward self x edge_attr edge_paths w = (Ok c, w') -> w' = printed w 2.
Proof.
  rewrite edge_forward_run. cbv zeta.
  destruct (EdgeEncoding.loop_src _ _ _ _); intros H; inversion H.
  unfold printed. cbn [seq map]. f_equal; [lia |]. now rewrite <- app_assoc.
Qed.

(** What a completed head has gone through. *)
Lemma head_forward_ok_inv (lm : Libm) (self : GraphormerAttentionHead.t)
    (x edge_attr b : tensor2) (edge_paths : edge_paths_t) (ptr : option (list Z))
    (w w' : World) (out : tensor2) :
  GraphormerAttentionHead.forward lm self x edge_attr b edge_paths ptr w = (Ok out, w') ->
  w' = printed w 2 /\
  rows out = rows x /\
  cols out = Linear.out_features (GraphormerAttentionHead.v self) /\
  cols x = Linear.in_features (GraphormerAttentionHead.q self) /\
  cols x = Linear.in_features (GraphormerAttentionHead.k self) /\
  cols x = Linear.in_features (GraphormerAttentionHead.v self) /\
  exists c, fst (EdgeEncoding.forward (GraphormerAttentionHead.edge_encoding self)
                   x edge_attr edge_paths w) = Ok c.
Proof.
  intros H. pose proof (head_forward_rows _ _ _ _ _ _ _ _ _ _ H) as Hrows.
  unfold GraphormerAttentionHead.forward in H.
  apply bind_ok_inv in H. destruct H as [tr [w1 [Htr H]]].
  apply lift_ok_inv in H. destruct H as [Hmm ->].
  unfold GraphormerAttentionHead.forward_trace in Htr. cbv zeta in Htr.
  apply bind_lift_ok_inv in Htr. destruct Htr as [query [Hq Htr]].
  apply bind_lift_ok_inv in Htr. destruct Htr as [key [Hk Htr]].
  apply bind_lift_ok_inv in Htr. destruct Htr as [value [Hv Htr]].
  apply bind_ok_inv in Htr. destruct Htr as [c [w2 [Hc Htr]]].
  apply bind_lift_ok_inv in Htr. destruct Htr as [a [_ Htr]].
  apply bind_lift_ok_inv in Htr. destruct Htr as [ab [_ Htr]].
  apply bind_lift_ok_inv in Htr. destruct Htr as [abc [_ Htr]].
  apply bind_lift_ok_inv in Htr. destruct Htr as [a' [_ Htr]].
  apply bind_lift_ok_inv in Htr. destruct Htr as [sm [_ Htr]].
  unfold ret in Htr. inversion Htr. subst tr w2. clear Htr.
  cbn [GraphormerAttentionHead.weights GraphormerAttentionHead.values] in Hmm.
  apply linear_forward_inv in Hq, Hk, Hv.
  destruct Hq as [Hq _], Hk as [Hk _], Hv as [Hv [_ Hvc]].
  split; [exact (edge_forward_world _ _ _ _ _ _ _ Hc) |].
  split; [exact Hrows |].
  split.
  { unfold mm in Hmm. destruct (_ =? _); [| discriminate]. inversion Hmm.
    rewrite cols_tinit. exact Hvc. }
  split; [exact Hq |]. split; [exact Hk |]. split; [exact Hv |].
  exists c. now rewrite Hc.
Qed.

(** X16. A completed head has printed exactly two timestamps and returns a
    tensor with one row per node and [dim_k] columns, the width of the value
    projection; [x] has the input width of the three projections. *)
Theorem head_forward_shape (lm : Libm) (self : GraphormerAttentionHead.t)
    (x edge_attr b : tensor2) (edge_paths : edge_paths_t) (ptr : option (list Z))
    (w w' : World) (out : tensor2) :
  GraphormerAttentionHead.forward lm self x edge_attr b edge_paths ptr w = (Ok out, w') ->
  rows out = rows x /\
  cols out = Linear.out_features (GraphormerAttentionHead.v self) /\
  cols x = Linear.in_features (GraphormerAttentionHead.q self) /\
  cols x = Linear.in_features (GraphormerAttentionHead.k self) /\
  cols x = Linear.in_features (GraphormerAttentionHead.v self) /\
  w' = printed w 2.
Proof.
  intros H. apply head_forward_ok_inv in H.
  destruct H as [Hw [Hr [Hc [Hq [Hk [Hv _]]]]]]. repeat split; assumption.
Qed.

Lemma head_forward_shape_witness :
  exists out w',
    GraphormerAttentionHead.forward libm_example head_example (zeros 5 1)
      edge_attr_example (zeros 5 5) [] (Some [0; 2; 5]%Z) world0 = (Ok out, w') /\
    rows out = 5 /\ cols out = 1 /\ ticks w' = 2.
Proof.
  eexists. eexists. split; [vm_compute; reflexivity |].
  destruct (head_forward_shape libm_example head_example (zeros 5 1)
              edge_attr_example (zeros 5 5) [] (Some [0; 2; 5]%Z) world0 _ _
              ltac:(vm_compute; reflexivity)) as [Hr [Hc _]].
  split; [exact Hr |]. split; [exact Hc | reflexivity].
Defined.

(** ** GraphormerMultiHeadAttention and GraphormerEncoderLayer *)

Lemma mmap_pointwise {A B : Type} (f g : A -> M B) (l : list A) :
  (forall a w, In a l -> f a w = g a w) -> forall w, mmap f l w = mmap g l w.
Proof.
  induction l as [| a l IH]; intros H w; cbn [mmap]; [reflexivity |].
  unfold bind. rewrite H by now left.
  destruct (g a w) as [[b | e] w1]; [| reflexivity].
  rewrite IH by (intros; apply H; now right). reflexivity.
Qed.

Lemma mmap_ok_inv {A B : Type} (f : A -> M B) (P : A -> World -> B -> Prop)
    (step : World -> World) (l : list A) :
  (forall a w b w', In a l -> f a w = (Ok b, w') -> w' = step w /\ P a w b) ->
  forall w outs w',
    mmap f l w = (Ok outs, w') ->
    w' = Nat.iter (length l) step w /\
    length outs = length l /\
    forall a, In a l -> exists w1 b, P a w1 b.
Proof.
  induction l as [| a l IH]; intros H w outs w' Hm; cbn [mmap] in Hm.
  - unfold ret in Hm. inversion Hm. repeat split. intros a [].
  - apply bind_ok_inv in Hm. destruct Hm as [b [w1 [Hb Hm]]].
    apply bind_ok_inv in Hm. destruct Hm as [bs [w2 [Hbs Hm]]].
    unfold ret in Hm. inversion Hm. subst outs w2. clear Hm.
    destruct (H a w b w1 (or_introl eq_refl) Hb) as [Hw1 HP].
    destruct (IH (fun a' w0 b' w0' Hin => H a' w0 b' w0' (or_intror Hin)) w1 bs w' Hbs)
      as [Hw' [Hlen Hall]].
    split; [| split].
    + rewrite Hw', Hw1. cbn [length]. now rewrite Nat.iter_succ_r.
    + cbn. now rewrite Hlen.
    + intros a' [<- | Hin]; [now exists w, b | now apply Hall].
Qed.

Lemma iter_printed (n k : nat) (w : World) :
  Nat.iter n (fun w => printed w k) w = printed w (n * k).
Proof.
  induction n as [| n IH].
  - cbn. now rewrite printed_0.
  - rewrite Nat.iter_succ, IH, printed_printed. f_equal. lia.
Qed.

(** What a completed multi-head attention has gone through. *)
Lemma mha_forward_ok_inv (lm : Libm) (self : GraphormerMultiHeadAttention.t)
    (x edge_attr b : tensor2) (edge_paths : edge_paths_t) (ptr : option (list Z))
    (w w' : World) (out : tensor2) :
  GraphormerMultiHeadAttention.forward lm self x edge_attr b edge_paths ptr w = (Ok out, w') ->
  GraphormerMultiHeadAttention.heads self <> [] /\
  w' = printed w (2 * length (GraphormerMultiHeadAttention.heads self)) /\
  forall h, In h (GraphormerMultiHeadAttention.heads self) ->
    exists w1 c, fst (EdgeEncoding.forward (GraphormerAttentionHead.edge_encoding h)
                        x edge_attr edge_paths w1) = Ok c.
Proof.
  unfold GraphormerMultiHeadAttention.forward. intros H.
  apply bind_ok_inv in H. destruct H as [outs [w1 [Houts H]]].
  apply bind_lift_ok_inv in H. destruct H as [cat [Hcat H]].
  apply lift_ok_inv in H. destruct H as [_ ->].
  destruct (mmap_ok_inv
              (fun h => GraphormerAttentionHead.forward lm h x edge_attr b edge_paths ptr)
              (fun h w0 _ =>
                 exists c, fst (EdgeEncoding.forward (GraphormerAttentionHead.edge_encoding h)
                                  x edge_attr edge_paths w0) = Ok c)
              (fun w0 => printed w0 2)
              (GraphormerMultiHeadAttention.heads self)) with (w := w) (outs := outs) (w' := w1)
    as [Hw [Hlen Hall]].
  - intros h w0 o w0' _ Hh. apply head_forward_ok_inv in Hh.
    destruct Hh as [Hw0 [_ [_ [_ [_ [_ Hc]]]]]]. split; assumption.
  - exact Houts.
  - split; [| split].
    + intros E. rewrite E in Hlen. destruct outs; [| discriminate]. discriminate.
    + rewrite Hw, iter_printed. f_equal. lia.
    + intros h Hin. destruct (Hall h Hin) as [w0 [_ [c Hc]]]. now exists w0, c.
Qed.

(** X17. A completed multi-head attention over H heads has run every head
    once, in order: it has printed exactly 2 H timestamps, H is not zero,
    and the result has one row per node and the output width of the final
    projection. *)
Theorem mha_forward_completed (lm : Libm) (self : GraphormerMultiHeadAttention.t)
    (x edge_attr b : tensor2) (edge_paths : edge_paths_t) (ptr : option (list Z))
    (w w' : World) (out : tensor2) :
  GraphormerMultiHeadAttention.forward lm self x edge_attr b edge_paths ptr w = (Ok out, w') ->
  1 <= length (GraphormerMultiHeadAttention.heads self) /\
  w' = printed w (2 * length (GraphormerMultiHeadAttention.heads self)) /\
  rows out = rows x /\
  cols out = Linear.out_features (GraphormerMultiHeadAttention.linear self).
Proof.
  intros H. pose proof (mha_forward_shape _ _ _ _ _ _ _ _ _ _ H) as [Hr Hc].
  apply mha_forward_ok_inv in H. destruct H as [Hne [Hw _]].
  split; [| split; [exact Hw | split; assumption]].
  destruct (GraphormerMultiHeadAttention.heads self); [contradiction | cbn; lia].
Qed.

Lemma mha_forward_completed_witness :
  exists out w',
    GraphormerMultiHeadAttention.forward libm_example
      (GraphormerEncoderLayer.attention layer_example)
      (zeros 2 1) edge_attr_example (zeros 2 2) [] None world0 = (Ok out, w') /\
    rows out = 2 /\ cols out = 1 /\ ticks w' = 2.
Proof.
  eexists. eexists. split; [vm_compute; reflexivity |].
  destruct (mha_forward_completed libm_example
              (GraphormerEncoderLayer.attention layer_example)
              (zeros 2 1) edge_attr_example (zeros 2 2) [] None world0 _ _
              ltac:(vm_compute; reflexivity)) as [_ [_ [Hr Hc]]].
  split; [exact Hr |]. split; [exact Hc | reflexivity].
Defined.

Lemma mha_forward_none_single_block (lm : Libm) (self : GraphormerMultiHeadAttention.t)
    (x edge_attr b : tensor2) (edge_paths : edge_paths_t) (w : World) :
  GraphormerMultiHeadAttention.forward lm self x edge_attr b edge_paths None w
  = GraphormerMultiHeadAttention.forward lm self x edge_attr b edge_paths
      (Some [0%Z; Z.of_nat (rows x)]) w.
Proof.
  unfold GraphormerMultiHeadAttention.forward, bind.
  rewrite (mmap_pointwise
             (fun h => GraphormerAttentionHead.forward lm h x edge_attr b edge_paths None)
             (fun h => GraphormerAttentionHead.forward lm h x edge_attr b edge_paths
                         (Some [0%Z; Z.of_nat (rows x)]))).
  - reflexivity.
  - intros h w0 _. unfold GraphormerAttentionHead.forward, GraphormerAttentionHead.forward_trace.
    cbv zeta. rewrite batch_masks_single_block. unfold bind, lift.
    destruct (Linear.forward (GraphormerAttentionHead.q h) x) as [query |] eqn:Hq;
      [| reflexivity].
    destruct (Linear.forward (GraphormerAttentionHead.k h) x) as [key |] eqn:Hk;
      [| reflexivity].
    destruct (Linear.forward (GraphormerAttentionHead.v h) x) as [value |];
      [| reflexivity].
    destruct (EdgeEncoding.forward _ x edge_attr edge_paths w0) as [[c | e] w1];
      [| reflexivity].
    apply linear_forward_inv in Hq, Hk.
    destruct Hq as [_ [Hq _]], Hk as [_ [Hk _]].
    replace (GraphormerAttentionHead.compute_a key query (Some [0%Z; Z.of_nat (rows x)]))
      with (GraphormerAttentionHead.compute_a key query None)
      by (rewrite <- Hq; symmetry; apply compute_a_single_block; congruence).
    reflexivity.
Qed.

(** X18. For the multi-head attention and for the encoder layer, a missing
    batch pointer and the batch pointer [0, N] of a single graph give the
    same result, errors and printed lines included. *)
Theorem encoder_forward_none_single_block (lm : Libm) (self : GraphormerEncoderLayer.t)
    (x edge_attr b : tensor2) (edge_paths : edge_paths_t) (w : World) :
  GraphormerMultiHeadAttention.forward lm (GraphormerEncoderLayer.attention self)
    x edge_attr b edge_paths None w
  = GraphormerMultiHeadAttention.forward lm (GraphormerEncoderLayer.attention self)
      x edge_attr b edge_paths (Some [0%Z; Z.of_nat (rows x)]) w /\
  GraphormerEncoderLayer.forward lm self x edge_attr b edge_paths None w
  = GraphormerEncoderLayer.forward lm self x edge_attr b edge_paths
      (Some [0%Z; Z.of_nat (rows x)]) w.
Proof.
  split; [apply mha_forward_none_single_block |].
  rewrite !encoder_forward_unfold.
  destruct (LayerNorm.forward (GraphormerEncoderLayer.ln_1 self) x) as [n1 |] eqn:Hn;
    [| reflexivity].
  assert (Hr : rows n1 = rows x).
  { unfold LayerNorm.forward in Hn. destruct (_ =? _); [| discriminate].
    inversion Hn. reflexivity. }
  rewrite <- Hr. now rewrite mha_forward_none_single_block.
Qed.

(** X19. An input whose width is not [node_dim] is rejected by the first
    layer norm: the encoder layer raises a RuntimeError and nothing has been
    printed. *)
Theorem encoder_forward_wrong_width (lm : Libm) (self : GraphormerEncoderLayer.t)
    (x edge_attr b : tensor2) (edge_paths : edge_paths_t) (ptr : option (list Z))
    (w : World) :
  LayerNorm.normalized_shape (GraphormerEncoderLayer.ln_1 self)
    = GraphormerEncoderLayer.node_dim self ->
  cols x <> GraphormerEncoderLayer.node_dim self ->
  GraphormerEncoderLayer.forward lm self x edge_attr b edge_paths ptr w
  = (Raise RuntimeError, w).
Proof.
  intros Hln Hx. rewrite encoder_forward_unfold. unfold LayerNorm.forward.
  rewrite Hln. apply Nat.eqb_neq in Hx. now rewrite Hx.
Qed.

Lemma encoder_forward_wrong_width_witness :
  GraphormerEncoderLayer.forward libm_example layer_example (zeros 2 3)
    edge_attr_example (zeros 2 2) [] None world0
  = (Raise RuntimeError, world0).
Proof.
  apply encoder_forward_wrong_width; [reflexivity | cbn; lia].
Defined.

(** X20. A completed encoder layer with H heads has printed exactly 2 H
    timestamps, H is not zero, and every path of the mapping has exactly one
    edge after truncation to the [max_path_distance] of every head: the
    layer never returns for a mapping with an empty path, nor, with
    [max_path_distance] at least two, for one with a path of two or more
    edges. *)
Theorem encoder_forward_completed (lm : Libm) (self : GraphormerEncoderLayer.t)
    (x edge_attr b : tensor2) (edge_paths : edge_paths_t) (ptr : option (list Z))
    (w w' : World) (out : tensor2) :
  GraphormerEncoderLayer.forward lm self x edge_attr b edge_paths ptr w = (Ok out, w') ->
  let heads := GraphormerMultiHeadAttention.heads (GraphormerEncoderLayer.attention self) in
  1 <= length heads /\
  w' = printed w (2 * length heads) /\
  forall h src destinations dst path,
    In h heads -> In (src, destinations) edge_paths -> In (dst, path) destinations ->
    Nat.min (EdgeEncoding.max_path_distance (GraphormerAttentionHead.edge_encoding h))
      (length path) = 1.
Proof.
  intros H heads. rewrite encoder_forward_unfold in H.
  destruct (LayerNorm.forward (GraphormerEncoderLayer.ln_1 self) x) as [n1 |];
    [| discriminate].
  destruct (GraphormerMultiHeadAttention.forward lm _ n1 edge_attr b edge_paths ptr w)
    as [[att | e] w1] eqn:Hm; [| discriminate].
  assert (Hw : w1 = w') by (inversion H; reflexivity). subst w1.
  apply mha_forward_ok_inv in Hm. destruct Hm as [Hne [Hw' Hall]].
  split; [| split; [exact Hw' |]].
  - fold heads in Hne. destruct heads; [contradiction | cbn; lia].
  - intros h src destinations dst path Hh Hs Hd.
    destruct (Hall h Hh) as [w0 [c Hc]].
    exact (edge_forward_ok_single _ _ _ _ _ _ Hc src destinations dst path Hs Hd).
Qed.

Lemma encoder_forward_completed_witness :
  exists out w',
    GraphormerEncoderLayer.forward libm_example layer_example
      (tensor_of_Z 2 1 [[3]; [5]]%Z) edge_attr_example (zeros 2 2) [(0, [(1, [3])])]
      (Some [0; 1; 2]%Z) world0 = (Ok out, w') /\
    ticks w' = 2 /\ stdout w' = [EmptyString; EmptyString].
Proof.
  eexists. eexists. split; [vm_compute; reflexivity |].
  destruct (encoder_forward_completed libm_example layer_example
              (tensor_of_Z 2 1 [[3]; [5]]%Z) edge_attr_example (zeros 2 2) [(0, [(1, [3])])]
              (Some [0; 1; 2]%Z) world0 _ _ ltac:(vm_compute; reflexivity)) as [_ [Hw _]].
  split; reflexivity.
Defined.

(** ** The blocks of a batch pointer *)

Lemma blocks_cons (a b : Z) (rest : list Z) :
  blocks (a :: b :: rest) = (a, b) :: blocks (b :: rest).
Proof. reflexivity. Qed.

Lemma blocks_in (p : list Z) (a b : Z) : In (a, b) (blocks p) -> In a p /\ In b p.
Proof.
  induction p as [| x p IH]; [intros [] |].
  destruct p as [| y rest]; [intros [] |].
  rewrite blocks_cons. intros [E | H].
  - inversion E. subst. split; [now left | right; now left].
  - destruct (IH H) as [Ha Hb]. split; now right.
Qed.

Lemma in_block_nonneg (N : nat) (a b : Z) (i : nat) :
  (0 <= a)%Z -> (0 <= b)%Z -> i < N ->
  in_block N (a, b) i = true <-> (a <= Z.of_nat i < b)%Z.
Proof.
  intros Ha Hb Hi. unfold in_block, in_range, slice_index. cbn [fst snd].
  destruct (Z.ltb_spec a 0); [lia |]. destruct (Z.ltb_spec b 0); [lia |].
  rewrite andb_true_iff, Nat.leb_le, Nat.ltb_lt. lia.
Qed.

Lemma sorted_nonneg (p : list Z) (z : Z) :
  hd_error p = Some 0%Z -> StronglySorted Z.le p -> In z p -> (0 <= z)%Z.
Proof.
  destruct p as [| x p]; [discriminate |]. cbn. intros E Hs Hin.
  inversion E. subst x. inversion Hs as [| x l _ Hall]. subst.
  destruct Hin as [<- | Hin]; [lia |].
  rewrite Forall_forall in Hall. now apply Hall.
Qed.

Lemma blocks_ordered (p : list Z) (a b c d : Z) :
  StronglySorted Z.le p ->
  In (a, b) (blocks p) -> In (c, d) (blocks p) ->
  (a, b) = (c, d) \/ (b <= c)%Z \/ (d <= a)%Z.
Proof.
  induction p as [| x p IH]; [intros _ [] |].
  destruct p as [| y rest]; [intros _ [] |].
  intros Hs. rewrite blocks_cons.
  inversion Hs as [| x' l Hs' Hall]. subst.
  assert (Hge : forall u v, In (u, v) (blocks (y :: rest)) -> (y <= u)%Z).
  { intros u v H. apply blocks_in in H. destruct H as [[<- | Hu] _]; [lia |].
    inversion Hs' as [| y' l' _ Hall']. subst.
    rewrite Forall_forall in Hall'. now apply Hall'. }
  intros [E1 | H1] [E2 | H2].
  - left. congruence.
  - inversion E1. subst. right. left. exact (Hge c d H2).
  - inversion E2. subst. right. right. exact (Hge a b H1).
  - exact (IH Hs' H1 H2).
Qed.

Lemma blocks_cover (N : nat) (i : nat) (rest : list Z) (a : Z) :
  i < N -> (0 <= a)%Z -> StronglySorted Z.le (a :: rest) ->
  (a <= Z.of_nat i < last (a :: rest) 0)%Z ->
  existsb (fun b => in_block N b i && in_block N b i) (blocks (a :: rest)) = true.
Proof.
  intros Hi. revert a. induction rest as [| b rest IH]; intros a Ha Hs Hr.
  - cbn in Hr. lia.
  - rewrite blocks_cons. cbn [existsb].
    inversion Hs as [| a' l Hs' Hall]. subst.
    assert (Hab : (a <= b)%Z) by (inversion Hall; assumption).
    destruct (Z.lt_ge_cases (Z.of_nat i) b) as [Hlt | Hge].
    + assert (E : in_block N (a, b) i = true) by (apply in_block_nonneg; lia).
      now rewrite E.
    + rewrite IH; [apply orb_true_r | lia | exact Hs' |].
      change (last (a :: b :: rest) 0%Z) with (last (b :: rest) 0%Z) in Hr. lia.
Qed.

(** X21. For a batch pointer that starts at 0, ends at N and never
    decreases, the relation "some block contains both nodes", on which both
    attention masks are 1, is an equivalence on the N nodes: every node is
    in a block with itself, the relation is symmetric, and two blocks that
    share a node hold the same nodes.  The masks thus split the nodes into
    the graphs of the batch. *)
Theorem batch_pointer_partition (N : nat) (p : list Z) :
  batch_pointer N p ->
  (forall i, i < N -> same_block N p i i = true) /\
  (forall i j, same_block N p i j = same_block N p j i) /\
  (forall i j k, i < N -> j < N -> k < N ->
     same_block N p i j = true -> same_block N p j k = true ->
     same_block N p i k = true) /\
  (forall i, i < N ->
     tget (fst (GraphormerAttentionHead.batch_masks N (Some p))) i i = one /\
     tget (snd (GraphormerAttentionHead.batch_masks N (Some p))) i i = one).
Proof.
  intros [Hhd [Hlast Hs]].
  assert (Hrefl : forall i, i < N -> same_block N p i i = true).
  { intros i Hi. unfold same_block.
    destruct p as [| a rest]; [discriminate |]. cbn in Hhd. inversion Hhd. subst a.
    apply blocks_cover; try assumption; lia. }
  split; [exact Hrefl |]. split; [| split].
  - intros i j. unfold same_block.
    induction (blocks p) as [| b bs IH]; cbn [existsb]; [reflexivity |].
    now rewrite IH, (andb_comm (in_block N b i)).
  - intros i j k Hi Hj Hk Hij Hjk. unfold same_block in *.
    apply existsb_exists in Hij. destruct Hij as [[a b] [Hin1 H1]].
    apply existsb_exists in Hjk. destruct Hjk as [[c d] [Hin2 H2]].
    apply andb_true_iff in H1, H2. destruct H1 as [H1i H1j], H2 as [H2j H2k].
    pose proof (blocks_in p a b Hin1) as [Ha Hb].
    pose proof (blocks_in p c d Hin2) as [Hc Hd].
    pose proof (sorted_nonneg p a Hhd Hs Ha) as Ha0.
    pose proof (sorted_nonneg p b Hhd Hs Hb) as Hb0.
    pose proof (sorted_nonneg p c Hhd Hs Hc) as Hc0.
    pose proof (sorted_nonneg p d Hhd Hs Hd) as Hd0.
    apply in_block_nonneg in H1i, H1j, H2j, H2k; try assumption.
    apply existsb_exists. exists (a, b). split; [exact Hin1 |].
    apply andb_true_iff. split; [now apply in_block_nonneg |].
    destruct (blocks_ordered p a b c d Hs Hin1 Hin2) as [E | [H | H]].
    + inversion E. subst. now apply in_block_nonneg.
    + lia.
    + lia.
  - intros i Hi. rewrite batch_masks_some. cbn [fst snd].
    rewrite !tget_tinit by assumption. now rewrite Hrefl.
Qed.

Lemma batch_pointer_partition_witness :
  same_block 5 [0; 2; 5]%Z 3 3 = true /\
  same_block 5 [0; 2; 5]%Z 4 2 = same_block 5 [0; 2; 5]%Z 2 4.
Proof.
  assert (H : batch_pointer 5 [0; 2; 5]%Z).
  { split; [reflexivity |]. split; [reflexivity |].
    repeat constructor; cbn; lia. }
  destruct (batch_pointer_partition 5 [0; 2; 5]%Z H) as [Hr [Hsym _]].
  split; [apply Hr; lia | apply Hsym].
Defined.

(** ** The distance of a node to a node at the same point *)

(** X22. For two nodes [i] and [j] with the same coordinates (in particular
    for [i = j]), the entry (i, j) of the distance matrix is the square root
    of [n - (2 r) . r + n], with [r] the common row and [n] its squared norm
    as computed in binary32: it is zero when that number is zero and NaN
    when rounding makes it negative, since nothing is clamped before the
    square root. *)
Theorem spatial_same_point_distance (coords dist : tensor2) (i j : nat) :
  SpatialEncoding.distances coords = Ok dist ->
  i < rows coords -> j < rows coords ->
  (forall k, k < cols coords -> tget coords i k = tget coords j k) ->
  let rad := radicand (cols coords) (trow coords i) in
  tget dist i j = sqrt rad /\
  (is_zero rad = true -> is_zero (tget dist i j) = true) /\
  (is_neg rad = true -> tget dist i j = nan).
Proof.
  intros Hd Hi Hj Hsame rad.
  assert (E : tget dist i j = sqrt rad).
  { unfold SpatialEncoding.distances in Hd.
    rewrite mm_ok in Hd by reflexivity. cbn [rbind] in Hd.
    assert (Hdist : dist = tinit (rows coords) (rows coords)
              (fun i j =>
                 sqrt (add (sub (vget (SpatialEncoding.norms coords) i)
                              (tget (tinit (rows (tmap (mul two) coords))
                                       (cols (transpose coords))
                                       (fun i j =>
                                          dot (cols (tmap (mul two) coords))
                                            (tget (tmap (mul two) coords) i)
                                            (fun k => tget (transpose coords) k j))) i j))
                         (vget (SpatialEncoding.norms coords) j))))
      by congruence.
    rewrite Hdist. autorewrite with shape.
    rewrite tget_tinit by assumption. rewrite tget_tinit by assumption.
    unfold SpatialEncoding.norms. rewrite !vget_vinit by assumption.
    unfold rad, radicand.
    assert (Hn : forall i', (forall k, k < cols coords -> tget coords i' k = tget coords i k) ->
              dot (cols coords) (tget coords i') (tget coords i')
              = dot (cols coords) (vget (trow coords i)) (vget (trow coords i))).
    { intros i' Hi'. apply dot_ext; intros k Hk; rewrite vget_trow by assumption;
        now apply Hi'. }
    rewrite (Hn i) by reflexivity.
    rewrite (Hn j) by (intros k Hk; symmetry; now apply Hsame).
    do 3 f_equal. apply dot_ext; intros k Hk.
    - unfold tmap. rewrite tget_tinit by assumption. now rewrite vget_trow.
    - rewrite tget_transpose by assumption. rewrite vget_trow by assumption.
      symmetry. now apply Hsame. }
  split; [exact E |]. rewrite E. split.
  - apply sqrt_zero.
  - apply sqrt_neg.
Qed.

Lemma spatial_same_point_distance_witness :
  exists dist,
    SpatialEncoding.distances (tensor_of_Z 2 3 [[1; 1; 0]; [3; 4; 0]]%Z) = Ok dist /\
    tget dist 0 0 = nan /\ is_zero (tget dist 1 1) = true.
Proof.
  eexists. split; [vm_compute; reflexivity |].
  split.
  - eapply (spatial_same_point_distance (tensor_of_Z 2 3 [[1; 1; 0]; [3; 4; 0]]%Z) _ 0 0);
      [vm_compute; reflexivity | cbn; lia | cbn; lia | reflexivity | reflexivity].
  - eapply (spatial_same_point_distance (tensor_of_Z 2 3 [[1; 1; 0]; [3; 4; 0]]%Z) _ 1 1);
      [vm_compute; reflexivity | cbn; lia | cbn; lia | reflexivity | reflexivity].
Defined.
